(** * Cypress-to-Playwright converter: a shallow embedding of
      [convert_cypress_code] and [_convert_advanced_patterns]
      (src/components/interfaces.py).

    Text is a Python [str]: a sequence of Unicode code points.  The
    converter only uses [in], [str.replace], [str.startswith],
    [str.lower], [re.findall], [re.search], [re.sub] and [re.escape];
    each is written out below.  The two places where Python consults the
    Unicode character database outside ASCII (the class [\d] and
    [str.lower]) are taken as a parameter [db], so that every statement
    holds whatever the database says about non-ASCII characters. *)

From Stdlib Require Import String Ascii NArith Bool Arith Lia List
  DecimalString Permutation.
Import ListNotations.

Set Implicit Arguments.

(** ** Python strings *)

Module Py.

Definition char := N.
Definition str := list char.

(** An ASCII literal of the source as a [str]. *)
Definition u (s : string) : str :=
  List.map N_of_ascii (list_ascii_of_string s).

Definition nl : str := [10%N].

(** [a == b] *)
Fixpoint str_eqb (a b : str) : bool :=
  match a, b with
  | [], [] => true
  | x :: a', y :: b' => N.eqb x y && str_eqb a' b'
  | _, _ => false
  end.

(** [s.startswith(p)] *)
Fixpoint startswith (p s : str) : bool :=
  match p, s with
  | [], _ => true
  | _ :: _, [] => false
  | a :: p', b :: s' => N.eqb a b && startswith p' s'
  end.

(** [sub in s] *)
Fixpoint contains (sub s : str) : bool :=
  startswith sub s ||
  match s with
  | [] => false
  | _ :: s' => contains sub s'
  end.

(** [s.replace(old, new)]: every leftmost non-overlapping occurrence of
    [old], scanning left to right.  [skip] counts the characters of the
    occurrence just replaced that are still to be passed over. *)
Fixpoint replace_from (old new : str) (skip : nat) (s : str) : str :=
  match s with
  | [] => []
  | c :: s' =>
      match skip with
      | S k => replace_from old new k s'
      | O =>
          if startswith old s
          then new ++ replace_from old new (length old - 1) s'
          else c :: replace_from old new 0 s'
      end
  end.

Definition replace (old new s : str) : str :=
  match old with
  | [] => new ++ flat_map (fun c => c :: new) s
  | _ :: _ => replace_from old new 0 s
  end.

(** ["\n".join(parts)] *)
Fixpoint join (sep : str) (parts : list str) : str :=
  match parts with
  | [] => []
  | [p] => p
  | p :: rest => p ++ sep ++ join sep rest
  end.

Definition is_ascii (c : char) : bool := (c <? 128)%N.

Definition ascii_lower (c : char) : char :=
  if ((65 <=? c) && (c <=? 90))%N then (c + 32)%N else c.

(** The part of the Unicode character database the converter depends on
    beyond ASCII: which non-ASCII code points [\d] accepts, and
    [str.lower] on text that is not pure ASCII. *)
Record unicode_db := {
  uni_decimal : char -> bool;
  uni_lower : str -> str
}.

(** [s.lower()] *)
Definition lower (db : unicode_db) (s : str) : str :=
  if forallb is_ascii s then List.map ascii_lower s else uni_lower db s.

(** A database that knows no digit and no capital letter outside ASCII. *)
Definition ascii_db : unicode_db :=
  {| uni_decimal := fun _ => false; uni_lower := fun s => s |}.

End Py.

Import Py.

(** ** Exceptions *)

Inductive exn := KeyError | ValueError | TypeError.

Inductive result (A : Type) :=
| Ok (a : A)
| Raise (e : exn).

Arguments Ok {A} a.
Arguments Raise {A} e.

Definition bind {A B} (m : result A) (k : A -> result B) : result B :=
  match m with
  | Ok a => k a
  | Raise e => Raise e
  end.

Notation "x <- m ;; k" := (bind m (fun x => k))
  (at level 61, m at next level, right associativity).
Notation "' pat <- m ;; k" := (bind m (fun x => match x with pat => k end))
  (at level 61, pat pattern, m at next level, right associativity).

(** [for x in xs: body], threading the loop's variables. *)
Fixpoint for_each {A S} (xs : list A) (body : A -> S -> result S) (s : S)
  : result S :=
  match xs with
  | [] => Ok s
  | x :: xs' => s' <- body x s ;; for_each xs' body s'
  end.

(** ** The fragment of [re] the converter uses

    A pattern is a sequence of items; an item is a single atom or one
    capturing group of atoms (the source nests no groups).  Quantifiers
    only ever apply to a character class.  Matching is Python's: greedy,
    backtracking, first success in priority order. *)

Module Re.

Inductive atom :=
| ALit (c : char)
| ACls (f : char -> bool)
| AStar (f : char -> bool)
| APlus (f : char -> bool).

Inductive item :=
| At (a : atom)
| Grp (body : list atom).

Definition pattern := list item.

Definition lit (s : string) : list atom := List.map ALit (u s).
Definition lits (s : string) : pattern := List.map At (lit s).

Section Matcher.
Variable R : Type.

(** Greedy [f*] followed by the continuation [k]; [acc] is the text of
    the enclosing group consumed so far, most recent first. *)
Fixpoint star (f : char -> bool) (k : str -> str -> option R)
         (s : str) (acc : str) : option R :=
  match s with
  | c :: s' =>
      if f c
      then match star f k s' (c :: acc) with
           | Some r => Some r
           | None => k s acc
           end
      else k s acc
  | [] => k s acc
  end.

Fixpoint m_atoms (l : list atom) (s : str) (acc : str)
         (k : str -> str -> option R) : option R :=
  match l with
  | [] => k s acc
  | ALit c :: l' =>
      match s with
      | x :: s' => if N.eqb x c then m_atoms l' s' (x :: acc) k else None
      | [] => None
      end
  | ACls f :: l' =>
      match s with
      | x :: s' => if f x then m_atoms l' s' (x :: acc) k else None
      | [] => None
      end
  | AStar f :: l' => star f (fun s' acc' => m_atoms l' s' acc' k) s acc
  | APlus f :: l' =>
      match s with
      | x :: s' =>
          if f x
          then star f (fun s' acc' => m_atoms l' s' acc' k) s' (x :: acc)
          else None
      | [] => None
      end
  end.

(** [caps] holds the groups closed so far, most recent first. *)
Fixpoint m_items (p : pattern) (s : str) (caps : list str)
         (k : str -> list str -> option R) : option R :=
  match p with
  | [] => k s caps
  | At a :: p' => m_atoms [a] s [] (fun s' _ => m_items p' s' caps k)
  | Grp body :: p' =>
      m_atoms body s [] (fun s' g => m_items p' s' (rev g :: caps) k)
  end.
End Matcher.

(** A match anchored at the start of [s]: the groups in order and the
    text left after the match. *)
Definition match_at (p : pattern) (s : str) : option (list str * str) :=
  m_items p s [] (fun rest caps => Some (rev caps, rest)).

Fixpoint ngroups (p : pattern) : nat :=
  match p with
  | [] => 0
  | At _ :: p' => ngroups p'
  | Grp _ :: p' => S (ngroups p')
  end.

(** What [re.findall] hands back for one match. *)
Inductive found :=
| FStr (s : str)
| FTuple (gs : list str).

Definition found_of (groups : nat) (whole : str) (caps : list str) : found :=
  match groups with
  | 0 => FStr whole
  | 1 => FStr (hd [] caps)
  | _ => FTuple caps
  end.

(** Leftmost non-overlapping matches, left to right: the matched text and
    its groups.  [skip] counts the characters of the last match still to be
    passed over.  Exact for patterns that cannot match the empty text,
    which is every pattern of the converter (each begins with a literal
    character). *)
Fixpoint scan (p : pattern) (skip : nat) (s : str) : list (str * list str) :=
  match s with
  | [] =>
      match skip, match_at p [] with
      | O, Some (caps, _) => [([], caps)]
      | _, _ => []
      end
  | _ :: s' =>
      match skip with
      | S k => scan p k s'
      | O =>
          match match_at p s with
          | Some (caps, rest) =>
              let n := length s - length rest in
              (firstn n s, caps) :: scan p (n - 1) s'
          | None => scan p 0 s'
          end
      end
  end.

(** [re.findall(p, s)] *)
Definition findall (p : pattern) (s : str) : list found :=
  List.map (fun m => found_of (ngroups p) (fst m) (snd m)) (scan p 0 s).

(** [re.search(p, s)] as a truth value *)
Fixpoint search (p : pattern) (s : str) : bool :=
  match match_at p s with
  | Some _ => true
  | None => match s with [] => false | _ :: s' => search p s' end
  end.

(** [re.sub(p, repl, s)] for a replacement text without escapes *)
Fixpoint sub_from (p : pattern) (repl : str) (skip : nat) (s : str) : str :=
  match s with
  | [] =>
      match skip, match_at p [] with
      | O, Some _ => repl
      | _, _ => []
      end
  | c :: s' =>
      match skip with
      | S k => sub_from p repl k s'
      | O =>
          match match_at p s with
          | Some (_, rest) =>
              match length s - length rest with
              | O => repl ++ c :: sub_from p repl 0 s'
              | S k => repl ++ sub_from p repl k s'
              end
          | None => c :: sub_from p repl 0 s'
          end
      end
  end.

Definition sub (p : pattern) (repl s : str) : str := sub_from p repl 0 s.

(** [re.escape(s)] (Python 3.7 and later) *)
Definition special_chars : str := u "()[]{}?*+-|^$\.&~# " ++ [9; 10; 13; 11; 12]%N.

Definition escape (s : str) : str :=
  flat_map (fun c => if existsb (N.eqb c) special_chars then [92%N; c] else [c]) s.

End Re.

(** ** The converter *)

Import Re.

(** A Python dict literal, iterated in insertion order. *)
Definition dict (V : Type) := list (str * V).

Definition table (l : list (string * string)) : dict str :=
  List.map (fun kv => (u (fst kv), u (snd kv))) l.

(** [k in d] *)
Definition dict_mem {V} (k : str) (d : dict V) : bool :=
  existsb (fun kv => str_eqb k (fst kv)) d.

(** [d[k]] *)
Fixpoint dict_get {V} (k : str) (d : dict V) : result V :=
  match d with
  | [] => Raise KeyError
  | (k', v) :: d' => if str_eqb k k' then Ok v else dict_get k d'
  end.

(** The two arrows of the explanation lines, as the source file spells
    them: U+00E2 U+20AC U+00A2 and U+00E2 U+2020 U+2019. *)
Definition bullet : str := [226; 8364; 162]%N.
Definition arrow : str := [226; 8224; 8217]%N.

(** [f"<bullet> {a} <arrow> {b}"] *)
Definition rule_line (a b : str) : str :=
  bullet ++ u " " ++ a ++ u " " ++ arrow ++ u " " ++ b.

Definition basic_syntax := table [
  ("cy.get(", "page.locator(");
  ("cy.visit(", "await page.goto(");
  ("cy.url()", "page.url()");
  (".type(", ".fill(");
  (".click()", ".click()");
  (".should('be.visible')", "await expect(...).toBeVisible()");
  (".should('contain',", "await expect(...).toContainText(");
  ("describe(", "test.describe(");
  ("it(", "test(");
  ("beforeEach(", "test.beforeEach(async ({ page }) => {")
]%string.

Definition assertions := table [
  ("cy.url().should('include',", "await expect(page).toHaveURL(/.*");
  ("cy.url().should('eq',", "await expect(page).toHaveURL(");
  ("cy.url().should('equal',", "await expect(page).toHaveURL(");
  ("cy.url().should('contain',", "await expect(page).toHaveURL(/.*");
  ("cy.url().should('match',", "await expect(page).toHaveURL(");
  (".should('be.visible')", "await expect(locator).toBeVisible()");
  (".should('not.exist')", "await expect(locator).not.toBeVisible()");
  (".should('contain',", "await expect(locator).toContainText(");
  (".should('have.text',", "await expect(locator).toHaveText(");
  (".should('have.value',", "await expect(locator).toHaveValue(");
  (".should('have.length',", "await expect(locator).toHaveCount(");
  (".should('be.empty')", "await expect(locator).toBeEmpty()");
  (".should('be.enabled')", "await expect(locator).toBeEnabled()");
  (".should('be.disabled')", "await expect(locator).toBeDisabled()");
  (".should('have.class',", "await expect(locator).toHaveClass(")
]%string.

Definition commands := table [
  ("cy.get(", "page.locator(");
  ("cy.visit(", "await page.goto(");
  ("cy.url()", "page.url()");
  ("cy.intercept(", "await page.route(");
  ("cy.fixture(", "// Use test data factory instead");
  ("cy.wrap(", "// Use direct variable assignment instead");
  ("cy.contains(", "page.getByText(");
  (".each(", ".map(async (element, index) => {");
  (".as('", "// Use variable assignment instead of alias")
]%string.

Definition waiting := table [
  (".should('be.visible')", "await expect(locator).toBeVisible()");
  (".should('exist')", "await expect(locator).toBeAttached()");
  (".should('not.exist')", "await expect(locator).not.toBeAttached()");
  ("cy.get(", "await page.locator(");
  ("cy.waitUntil(", "await page.waitForFunction(");
  ("cy.wait().then(", "// Use direct async/await instead")
]%string.

Definition advanced := table [
  ("cy.request(", "await request.newContext().request(");
  ("cy.intercept('GET',", "await page.route('GET', ");
  ("cy.intercept('POST',", "await page.route('POST', ");
  ("cy.intercept('PUT',", "await page.route('PUT', ");
  ("cy.intercept('DELETE',", "await page.route('DELETE', ");
  ("cy.wait('@", "await page.waitForResponse(");
  ("cy.task(", "// Use custom functions or direct Node.js code");
  ("Cypress.Commands.add(", "// Convert to Page Object Model method");
  ("Cypress.env(", "process.env.");
  ("window.localStorage.setItem(", "await page.evaluate(() => localStorage.setItem(");
  ("window.localStorage.getItem(", "await page.evaluate(() => localStorage.getItem(");
  (".its('response.statusCode')", "// Use response object directly");
  (".fixture(", "// Use JSON import or test data factory")
]%string.

Definition url_navigation := table [
  ("cy.visit(", "await page.goto(");
  ("cy.url()", "page.url()");
  ("cy.go('back')", "await page.goBack()");
  ("cy.go('forward')", "await page.goForward()");
  ("cy.reload()", "await page.reload()");
  ("cy.url().should('include',", "await expect(page).toHaveURL(/.*");
  ("cy.url().should('eq',", "await expect(page).toHaveURL(");
  ("cy.url().should('equal',", "await expect(page).toHaveURL(");
  ("cy.url().should('contain',", "await expect(page).toHaveURL(/.*");
  ("cy.url().should('match',", "await expect(page).toHaveURL(");
  ("cy.location('search').should('include',", "await expect(page).toHaveURL(/.*");
  ("cy.location('pathname').should('include',", "await expect(page).toHaveURL(/.*");
  ("cy.location('hash').should('include',", "await expect(page).toHaveURL(/.*")
]%string.

Definition architectural := table [
  ("cy.window().then(", "await page.evaluate(");
  ("cy.window().its(", "await page.evaluate(() => window.");
  ("cy.window()", "await page.evaluate(() => window)");
  ("Cypress.Commands.add(", "// Convert to Page Object Model method or helper function");
  (".invoke(", "await page.evaluate(");
  (".its(", "// Use page.evaluate() for property access");
  ("cy.stub(", "// Use page.route() for network mocking instead");
  ("cy.spy(", "// Use page.evaluate() for function monitoring");
  ("cy.wrap(", "// Use direct async/await instead of wrapping");
  (".as('", "// Use variable assignment: const alias = ");
  ("cy.get('@", "// Use the stored variable directly");
  (".should('have.property',", "// Use page.evaluate() to check properties");
  (".should('have.been.called", "// Use page.route() with callback tracking")
]%string.

Definition fixtures_commands := table [
  ("cy.fixture(", "// Import JSON directly or use data loading utility");
  ("Cypress.Commands.add(", "// Convert to helper function or Page Object method");
  ("cy.task(", "// Use direct function calls or utility classes");
  ("Cypress.env(", "process.env.");
  (".as('", "// Use variable assignment instead of alias");
  ("cy.get('@", "// Use the stored variable directly");
  ("beforeEach(", "test.beforeEach(async ({ page }) => {");
  ("before(", "test.beforeAll(async ({ browser }) => {")
]%string.

Definition conversions : dict (dict str) := [
  (u "basic_syntax", basic_syntax);
  (u "assertions", assertions);
  (u "commands", commands);
  (u "waiting", waiting);
  (u "advanced", advanced);
  (u "url_navigation", url_navigation);
  (u "architectural", architectural);
  (u "fixtures_commands", fixtures_commands)
].

Definition categories_to_apply : list str := List.map u [
  "basic_syntax"; "assertions"; "commands"; "waiting"; "advanced";
  "url_navigation"; "architectural"; "fixtures_commands"
]%string.

Definition known_patterns : list str := List.map u [
  "cy.get("; "cy.visit("; "cy.url("; "cy.wait("; "cy.intercept(";
  "cy.contains("; "cy.fixture("; "cy.wrap("; "cy.window("; "cy.location(";
  "cy.go("; "cy.reload("; "cy.request("; "cy.task("; "cy.stub(";
  "cy.spy("; "cy.waitUntil("
]%string.

(** *** Character classes *)

Definition quote (c : char) : bool := (N.eqb c 39 || N.eqb c 34)%N.
Definition not_quote (c : char) : bool := negb (quote c).
Definition not_rparen (c : char) : bool := negb (N.eqb c 41%N).
Definition not_comma (c : char) : bool := negb (N.eqb c 44%N).
Definition between (lo hi c : char) : bool := ((lo <=? c) && (c <=? hi))%N.
Definition alpha (c : char) : bool := (between 97 122 c || between 65 90 c)%N.
Definition alnum (c : char) : bool := (alpha c || between 48 57 c)%N.

(** [\s] on [str]: the code points for which [str.isspace] holds. *)
Definition space (c : char) : bool :=
  (between 9 13 c || between 28 32 c || N.eqb c 133 || N.eqb c 160 ||
   N.eqb c 5760 || between 8192 8202 c || N.eqb c 8232 || N.eqb c 8233 ||
   N.eqb c 8239 || N.eqb c 8287 || N.eqb c 12288)%N.

Section Converter.
Variable db : unicode_db.

(** [\d] on [str]: the ASCII digits and the further decimal digits of the
    Unicode database. *)
Definition digit (c : char) : bool :=
  if is_ascii c then between 48%N 57%N c else uni_decimal db c.

(** A quoted argument: a single or double quote, the group of one or
    more characters that are neither, and a quote again. *)
Definition quoted : pattern := [At (ACls quote); Grp [APlus not_quote]; At (ACls quote)].

(** [\s*] *)
Definition ws : pattern := [At (AStar space)].

Definition contains_basic_pattern : pattern :=
  lits "cy.contains(" ++ quoted ++ lits ")".

Definition contains_selector_pattern : pattern :=
  lits "cy.contains(" ++ quoted ++ ws ++ lits "," ++ ws ++ quoted ++ lits ")".

Definition unidentified_cy_pattern : pattern :=
  [Grp (lit "cy." ++ [ACls alpha; AStar alnum] ++ lit "(" ++
        [AStar not_rparen] ++ lit ")")].

Definition location_search_pattern : pattern :=
  lits "cy.location('search').should('include'," ++ ws ++ quoted ++ lits ")".

Definition location_pathname_pattern : pattern :=
  lits "cy.location('pathname').should('include'," ++ ws ++ quoted ++ lits ")".

Definition location_hash_pattern : pattern :=
  lits "cy.location('hash').should('include'," ++ ws ++ quoted ++ lits ")".

Definition include_pattern : pattern :=
  lits "cy.url().should('include'," ++ ws ++ quoted ++ lits ")".

Definition eq_pattern : pattern :=
  lits "cy.url().should('eq'," ++ ws ++ quoted ++ lits ")".

Definition contain_pattern : pattern :=
  lits "cy.url().should('contain'," ++ ws ++ quoted ++ lits ")".

Definition wait_its_should_pattern : pattern :=
  lits "cy.wait('@" ++ [Grp [APlus not_quote]] ++
  lits "').its('response.statusCode').should('eq'," ++ ws ++
  [Grp [APlus digit]] ++ lits ")".

Definition wait_its_pattern : pattern :=
  lits "cy.wait('@" ++ [Grp [APlus not_quote]] ++
  lits "').its('response.statusCode')".

Definition wait_alias_pattern : pattern :=
  lits "cy.wait('@" ++ [Grp [APlus not_quote]] ++ lits "')".

Definition wait_number_pattern : pattern :=
  lits "cy.wait(" ++ [Grp [APlus digit]] ++ lits ")".

Definition its_response_pattern : pattern :=
  lits ".its('response.statusCode')".

Definition status_should_pattern : pattern :=
  lits ".status().should('eq'," ++ ws ++ [Grp [APlus digit]] ++ lits ")".

Definition should_eq_pattern : pattern :=
  lits ".should('eq'," ++ ws ++ [Grp [APlus digit]] ++ lits ")".

Definition wait_until_pattern : pattern :=
  lits "cy.waitUntil(() => " ++ [Grp [APlus not_rparen]] ++ lits ")".

Definition alias_pattern : pattern :=
  lits ".as(" ++ quoted ++ lits ")".

Definition get_alias_pattern : pattern :=
  lits "cy.get('@" ++ [Grp [APlus not_quote]] ++ lits "')".

Definition each_pattern : pattern :=
  lits ".each(($" ++ [Grp [APlus not_comma]] ++ lits "," ++ ws ++
  [Grp [APlus not_rparen]] ++ lits ")" ++ ws ++ lits "=>" ++ ws ++ lits "{".

Definition wrap_pattern : pattern :=
  lits "cy.wrap($" ++ [Grp [APlus not_rparen]] ++ lits ")".

(** *** Loop bodies *)

(** The loop variables of [_convert_advanced_patterns]: [code] and
    [explanations]. *)
Definition state := (str * list str)%type.

(** A [findall] result used as a string.  Python would format a tuple
    with its [repr] inside an f-string; the model raises instead, and
    [convert_total] shows that neither happens. *)
Definition as_str (x : found) : result str :=
  match x with
  | FStr s => Ok s
  | FTuple _ => Raise TypeError
  end.

(** [a, b = x] *)
Definition unpack2 (x : found) : result (str * str) :=
  match x with
  | FTuple [a; b] => Ok (a, b)
  | _ => Raise ValueError
  end.

(** [code = code.replace(old, new); explanations.append(line)] *)
Definition rewrite (old new line : str) (st : state) : state :=
  (replace old new (fst st), snd st ++ [line]).

(** [for match in re.findall(p, code): old = ..; new = ..;
     code = code.replace(old, new); explanations.append(..)] *)
Definition rule1 (p : pattern) (old new : str -> str)
           (line : str -> str -> str -> str) (st : state) : result state :=
  for_each (findall p (fst st))
    (fun x st => m <- as_str x ;;
                 Ok (rewrite (old m) (new m) (line m (old m) (new m)) st)) st.

(** [for a, b in re.findall(p, code): ...] *)
Definition rule2 (p : pattern) (old new : str -> str -> str) (st : state)
  : result state :=
  for_each (findall p (fst st))
    (fun x st => '(a, b) <- unpack2 x ;;
                 Ok (rewrite (old a b) (new a b)
                             (rule_line (old a b) (new a b)) st)) st.

(** [is_unidentified and cy_command in code] *)
Definition to_flag (cy_command code : str) : bool :=
  negb (existsb (fun known => startswith known cy_command) known_patterns)
  && contains cy_command code.

(** The fallback for [cy.<name>(...)] calls no rule knows. *)
Definition flag_unidentified (p : pattern) (st : state) : result state :=
  for_each (findall p (fst st))
    (fun x st =>
       cy_command <- as_str x ;;
       if to_flag cy_command (fst st)
       then
         let new_pattern :=
           u "// TODO: Manual review needed - possible custom command: " ++ cy_command in
         Ok (rewrite cy_command new_pattern (rule_line cy_command new_pattern) st)
       else Ok st) st.

(** [if re.search(p, code): code = re.sub(p, repl, code); explanations.append(line)] *)
Definition sub_if (p : pattern) (repl line : str) (st : state) : state :=
  if search p (fst st) then (sub p repl (fst st), snd st ++ [line]) else st.

(** [if re.search(p, code): explanations.append(line)] *)
Definition note_if (p : pattern) (line : str) (st : state) : state :=
  if search p (fst st) then (fst st, snd st ++ [line]) else st.

(** The blocks of [_convert_advanced_patterns], by shape. *)
Inductive block :=
| Rule1 (p : pattern) (old new : str -> str) (line : str -> str -> str -> str)
| Rule2 (p : pattern) (old new : str -> str -> str)
| FlagUnidentified (p : pattern)
| SubIf (p : pattern) (repl line : str)
| NoteIf (p : pattern) (line : str).

Definition run_block (b : block) (st : state) : result state :=
  match b with
  | Rule1 p old new line => rule1 p old new line st
  | Rule2 p old new => rule2 p old new st
  | FlagUnidentified p => flag_unidentified p st
  | SubIf p repl line => Ok (sub_if p repl line st)
  | NoteIf p line => Ok (note_if p line st)
  end.

(** The usual explanation line. *)
Definition plain (_ old new : str) : str := rule_line old new.

(** The route glob guessed from an alias name. *)
Definition wait_alias_new (m : str) : str :=
  if contains (u "api") (lower db m) || contains (u "request") (lower db m)
     || contains (u "get") (lower db m)
  then u "await page.waitForResponse('**/*" ++
       lower db (replace (u "data") [] (replace (u "api") [] (replace (u "get") [] m))) ++
       u "*')"
  else u "await page.waitForResponse('**/" ++ m ++ u "**')".

(** Lines 172-376, top to bottom. *)
Definition advanced_blocks : list block := [
  Rule1 contains_basic_pattern
    (fun m => u "cy.contains('" ++ m ++ u "')")
    (fun m => u "page.getByText('" ++ m ++ u "')") plain;
  Rule2 contains_selector_pattern
    (fun selector text => u "cy.contains('" ++ selector ++ u "', '" ++ text ++ u "')")
    (fun selector text => u "page.locator('" ++ selector ++ u "').getByText('" ++ text ++ u "')");
  FlagUnidentified unidentified_cy_pattern;
  Rule1 location_search_pattern
    (fun m => u "cy.location('search').should('include', '" ++ m ++ u "')")
    (fun m => u "await expect(page).toHaveURL(/.*\?.*" ++ escape m ++ u ".*/)") plain;
  Rule1 location_pathname_pattern
    (fun m => u "cy.location('pathname').should('include', '" ++ m ++ u "')")
    (fun m => u "await expect(page).toHaveURL(/.*" ++ escape m ++ u ".*/)") plain;
  Rule1 location_hash_pattern
    (fun m => u "cy.location('hash').should('include', '" ++ m ++ u "')")
    (fun m => u "await expect(page).toHaveURL(/.*#" ++ escape m ++ u ".*/)") plain;
  Rule1 include_pattern
    (fun m => u "cy.url().should('include', '" ++ m ++ u "')")
    (fun m => u "await expect(page).toHaveURL(/.*" ++ escape m ++ u ".*/)") plain;
  Rule1 eq_pattern
    (fun m => u "cy.url().should('eq', '" ++ m ++ u "')")
    (fun m => u "await expect(page).toHaveURL('" ++ m ++ u "')") plain;
  Rule1 contain_pattern
    (fun m => u "cy.url().should('contain', '" ++ m ++ u "')")
    (fun m => u "await expect(page).toHaveURL(/.*" ++ escape m ++ u ".*/)") plain;
  Rule2 wait_its_should_pattern
    (fun alias status_code =>
       u "cy.wait('@" ++ alias ++ u "').its('response.statusCode').should('eq', " ++
       status_code ++ u ")")
    (fun alias status_code =>
       u "expect((await page.waitForResponse('**/" ++ alias ++ u "**')).status()).toBe(" ++
       status_code ++ u ")");
  Rule1 wait_its_pattern
    (fun m => u "cy.wait('@" ++ m ++ u "').its('response.statusCode')")
    (fun m => u "(await page.waitForResponse('**/" ++ m ++ u "**')).status()") plain;
  Rule1 wait_alias_pattern
    (fun m => u "cy.wait('@" ++ m ++ u "')") wait_alias_new plain;
  Rule1 wait_number_pattern
    (fun m => u "cy.wait(" ++ m ++ u ")")
    (fun m => u "await page.waitForTimeout(" ++ m ++ u ")")
    (fun _ old new => rule_line old new ++ u " (consider using auto-wait instead)");
  SubIf its_response_pattern (u ".status()")
    (rule_line (u ".its('response.statusCode')") (u ".status()"));
  Rule1 status_should_pattern
    (fun m => u ".status().should('eq', " ++ m ++ u ")")
    (fun m => u ".status()).toBe(" ++ m ++ u ")")
    (fun _ old new => bullet ++ u " " ++ old ++ u " " ++ arrow ++ u " expect(..." ++ new);
  Rule1 should_eq_pattern
    (fun m => u ".should('eq', " ++ m ++ u ")")
    (fun m => u " === " ++ m)
    (fun _ old new => rule_line old new ++ u " (direct comparison)");
  Rule1 wait_until_pattern
    (fun m => u "cy.waitUntil(() => " ++ m ++ u ")")
    (fun m => u "await page.waitForFunction(() => " ++ m ++ u ")") plain;
  Rule1 alias_pattern
    (fun m => u ".as('" ++ m ++ u "')")
    (fun m => u "// Store in variable: const " ++ m ++ u " = ")
    (fun m _ _ => bullet ++ u " Alias .as('" ++ m ++ u "') " ++ arrow ++
                  u " Use variable assignment");
  Rule1 get_alias_pattern
    (fun m => u "cy.get('@" ++ m ++ u "')")
    (fun m => m)
    (fun m old _ => bullet ++ u " " ++ old ++ u " " ++ arrow ++ u " Use variable " ++ m);
  NoteIf each_pattern
    (bullet ++ u " .each() " ++ arrow ++
     u " Use for loop with locator.count() and locator.nth()");
  Rule1 wrap_pattern
    (fun m => u "cy.wrap($" ++ m ++ u ")")
    (fun m => u "// Use direct locator methods on " ++ m)
    (fun m _ _ => bullet ++ u " cy.wrap($" ++ m ++ u ") " ++ arrow ++
                  u " Use direct locator operations")
].

Definition _convert_advanced_patterns (code : str) : result state :=
  for_each advanced_blocks run_block (code, []).

(** *** [convert_cypress_code] *)

(** [if cypress_pattern in converted_code: replace and explain] *)
Definition apply_pair (kv : str * str) (st : state) : result state :=
  if contains (fst kv) (fst st)
  then Ok (rewrite (fst kv) (snd kv) (rule_line (fst kv) (snd kv)) st)
  else Ok st.

(** [for cypress_pattern, playwright_pattern in items.items(): ...] *)
Definition apply_table (items : dict str) (st : state) : result state :=
  for_each items apply_pair st.

(** The advanced pass and [explanation_parts.extend(url_explanations)] *)
Definition then_advanced (st : state) : result state :=
  adv <- _convert_advanced_patterns (fst st) ;;
  Ok (fst adv, snd st ++ snd adv).

(** Lines 119-146: the rules selected by [conversion_type]. *)
Definition run_rules (cypress_code conversion_type : str) : result state :=
  let st : state := (cypress_code, []) in
  if str_eqb conversion_type (u "full_conversion") then
    st <- for_each categories_to_apply
            (fun category st =>
               if dict_mem category conversions
               then items <- dict_get category conversions ;;
                    apply_table items st
               else Ok st) st ;;
    then_advanced st
  else if dict_mem conversion_type conversions then
    items <- dict_get conversion_type conversions ;;
    st <- apply_table items st ;;
    then_advanced st
  else Ok st.

(** Line 149 *)
Definition lacks_await (code : str) : bool :=
  negb (contains (u "await ") code) &&
  (contains (u "page.") code || contains (u "expect(") code).

(** Line 154 *)
Definition wants_import (conversion_type code : str) : bool :=
  str_eqb conversion_type (u "full_conversion") &&
  (contains (u "test(") code || contains (u "expect(") code).

(** Lines 148-157: the async note and the import line. *)
Definition add_boilerplate (conversion_type : str) (st : state) : state :=
  let st : state :=
    if lacks_await (fst st)
    then (u "// Add async/await syntax" ++ nl ++ fst st,
          snd st ++ [bullet ++ u " Added async/await syntax requirement"])
    else st in
  if wants_import conversion_type (fst st)
  then
    if negb (startswith (u "import") (fst st))
    then (u "import { test, expect } from '@playwright/test';" ++ nl ++ nl ++ fst st,
          snd st ++ [bullet ++ u " Added required Playwright imports"])
    else st
  else st.

(** Line 159 *)
Definition render (explanation_parts : list str) : str :=
  match explanation_parts with
  | [] => u "No direct conversions needed."
  | _ :: _ => u "**Conversion Changes:**" ++ nl ++ join nl explanation_parts
  end.

(** Lines 161-164; the line appended to [explanation_parts] there comes
    after [explanation] was built and is not returned. *)
Definition fix_before_each (converted_code : str) : str :=
  if contains (u "test.test.beforeEach") converted_code
  then replace (u "test.test.beforeEach") (u "test.beforeEach") converted_code
  else converted_code.

Definition convert_cypress_code (cypress_code conversion_type : str)
  : result (str * str) :=
  st <- run_rules cypress_code conversion_type ;;
  let st := add_boilerplate conversion_type st in
  Ok (fix_before_each (fst st), render (snd st)).

End Converter.

(** ** Vocabulary of the statements *)

(** A mode the converter knows: [full_conversion] or a category name. *)
Definition recognized_mode (conversion_type : str) : bool :=
  str_eqb conversion_type (u "full_conversion") ||
  dict_mem conversion_type conversions.

(** The tables [run_rules] walks through under a mode, in order. *)
Definition tables_of (conversion_type : str) : list (dict str) :=
  if str_eqb conversion_type (u "full_conversion")
  then flat_map (fun category =>
                   match dict_get category conversions with
                   | Ok items => [items]
                   | Raise _ => []
                   end) categories_to_apply
  else match dict_get conversion_type conversions with
       | Ok items => [items]
       | Raise _ => []
       end.

Definition block_pattern (b : block) : pattern :=
  match b with
  | Rule1 p _ _ _ => p
  | Rule2 p _ _ => p
  | FlagUnidentified p => p
  | SubIf p _ _ => p
  | NoteIf p _ => p
  end.

(** The loop of a block unpacks what [findall] yields for its pattern:
    strings up to one group, pairs for two. *)
Definition block_wf (b : block) : bool :=
  match b with
  | Rule1 p _ _ _ => ngroups p <=? 1
  | Rule2 p _ _ => ngroups p =? 2
  | FlagUnidentified p => ngroups p <=? 1
  | SubIf _ _ _ => true
  | NoteIf _ _ => true
  end.

(** A block has nothing to do on [code]: its pattern matches nowhere, or,
    for the fallback block, no call it finds is to be flagged. *)
Definition block_idle (b : block) (code : str) : bool :=
  match b with
  | FlagUnidentified p =>
      forallb (fun x => match x with
                        | FStr cy_command => negb (to_flag cy_command code)
                        | FTuple _ => false
                        end) (findall p code)
  | _ => negb (search (block_pattern b) code)
  end.

(** No rule of the mode applies to [code]: no key of its tables occurs in
    it and, when the mode is a recognized one, every block of the
    advanced pass is idle. *)
Definition keys_absent (items : dict str) (code : str) : bool :=
  forallb (fun kv => negb (contains (fst kv) code)) items.

Definition rules_idle (db : unicode_db) (conversion_type code : str) : bool :=
  forallb (fun items => keys_absent items code) (tables_of conversion_type) &&
  (negb (recognized_mode conversion_type) ||
   forallb (fun b => block_idle b code) (advanced_blocks db)).

(** [code] is left alone altogether: no rule applies, no boilerplate is
    due and there is no [test.test.beforeEach] to repair. *)
Definition settled (db : unicode_db) (conversion_type code : str) : bool :=
  rules_idle db conversion_type code &&
  negb (lacks_await code) &&
  negb (wants_import conversion_type code && negb (startswith (u "import") code)) &&
  negb (contains (u "test.test.beforeEach") code).

(** The explanation of a run that changed nothing. *)
Definition no_changes : str := u "No direct conversions needed.".

Definition full_conversion : str := u "full_conversion".

(** ** The conversion-type dropdown (lines 948-950) *)

Definition conversion_type_choices : list str := List.map u [
  "full_conversion"; "basic_syntax"; "assertions"; "commands"; "waiting";
  "advanced"; "url_navigation"; "architectural"; "fixtures_commands"
]%string.

Fixpoint lit_atoms (l : list atom) : str :=
  match l with
  | ALit c :: l' => c :: lit_atoms l'
  | _ => []
  end.

(** The literal text every match of a pattern begins with: its leading
    literal atoms, up to and into a first group. *)
Fixpoint lit_prefix (p : pattern) : str :=
  match p with
  | At (ALit c) :: p' => c :: lit_prefix p'
  | Grp body :: _ => lit_atoms body
  | _ => []
  end.

(** [p] and [t] differ at a position both have. *)
Fixpoint clash (p t : str) : bool :=
  match p, t with
  | a :: p', b :: t' => negb (N.eqb a b) || clash p' t'
  | _, _ => false
  end.

(** No occurrence of [p] can begin inside [a], whatever follows [a]. *)
Fixpoint begins_none (p a : str) : bool :=
  match a with
  | [] => true
  | _ :: a' => clash p a && begins_none p a'
  end.

Definition ascii_digit (c : char) : bool := between 48%N 57%N c.

(** [k] is not empty, holds no ASCII digit and occurs neither in [pre]
    nor in [post]: it then occurs nowhere in [pre], a number, [post]. *)
Definition gap_free (k pre post : str) : bool :=
  match k with [] => false | _ :: _ => true end &&
  forallb (fun c => negb (ascii_digit c)) k &&
  negb (contains k pre) && negb (contains k post).

(** The status-code chain of the wait tests, its conversion by the
    composite rule, and what follows its first call. *)
Definition status_chain (n : str) : str :=
  u "cy.wait('@getData').its('response.statusCode').should('eq', " ++ n ++ u ")".

Definition status_chain_converted_text (n : str) : str :=
  u "expect((await page.waitForResponse('**/getData**')).status()).toBe(" ++
  n ++ u ")".

Definition status_chain_tail (n : str) : str :=
  u ".its('response.statusCode').should('eq', " ++ n ++ u ")".

(** The text of [k] before its first [c], and the text after it. *)
Fixpoint before_char (c : char) (k : str) : str :=
  match k with
  | [] => []
  | x :: k' => if N.eqb x c then [] else x :: before_char c k'
  end.

Fixpoint after_char (c : char) (k : str) : str :=
  match k with
  | [] => []
  | x :: k' => if N.eqb x c then k' else after_char c k'
  end.

(** [k] holds a [c] and cannot lie across a [c] that has [lx] right
    before it and [ly] right behind it: what [k] has in front of its first
    [c] differs from the end of [lx], or what it has behind differs from
    the beginning of [ly]. *)
Definition apart_at (c : char) (lx ly k : str) : bool :=
  existsb (N.eqb c) k &&
  (clash (rev (before_char c k)) (rev lx) || clash (after_char c k) ly).

(** What JavaScript reads as code on a line: the text in front of the
    first [//].  (String literals are not looked into; the lines this is
    used on hold no [//] inside one.) *)
Fixpoint code_part (line : str) : str :=
  match line with
  | [] => []
  | c :: rest => if startswith (u "//") line then [] else c :: code_part rest
  end.

(** ** src/utils/helpers.py *)

Module Str.

(** [s.count(sub)]: the non-overlapping occurrences, left to right. *)
Fixpoint count_from (sub : str) (skip : nat) (s : str) : nat :=
  match s with
  | [] => 0
  | _ :: s' =>
      match skip with
      | S k => count_from sub k s'
      | O =>
          if startswith sub s
          then S (count_from sub (length sub - 1) s')
          else count_from sub 0 s'
      end
  end.

Definition count (sub s : str) : nat :=
  match sub with
  | [] => S (length s)
  | _ :: _ => count_from sub 0 s
  end.

(** [s.split(sep)] for a separator of one character. *)
Fixpoint split (sep : char) (s : str) : list str :=
  match s with
  | [] => [[]]
  | x :: s' =>
      if N.eqb x sep then [] :: split sep s'
      else match split sep s' with
           | l :: ls => (x :: l) :: ls
           | [] => [[x]]
           end
  end.

Fixpoint lstrip (s : str) : str :=
  match s with
  | [] => []
  | x :: s' => if space x then lstrip s' else s
  end.

(** [s.strip()] *)
Definition strip (s : str) : str := rev (lstrip (rev (lstrip s))).

(** [str(n)] for a non-negative integer *)
Definition of_nat (n : nat) : str :=
  u (DecimalString.NilZero.string_of_uint (Nat.to_uint n)).

End Str.

Definition create_comparison_table (cypress_examples playwright_examples : list str)
  : str :=
  fold_left
    (fun table row =>
       table ++ u "| `" ++ fst row ++ u "` | `" ++ snd row ++ u "` |" ++ nl)
    (combine cypress_examples playwright_examples)
    (u "| Cypress | Playwright |" ++ nl ++ u "|---------|------------|" ++ nl).

(** [str.count] raises nothing, so the [except] branch is never taken. *)
Definition validate_javascript_syntax (code : str) : bool * str :=
  if negb (Str.count (u "(") code =? Str.count (u ")") code)
  then (false, u "Mismatched parentheses")
  else if negb (Str.count (u "{") code =? Str.count (u "}") code)
  then (false, u "Mismatched curly braces")
  else if negb (Str.count (u "[") code =? Str.count (u "]") code)
  then (false, u "Mismatched square brackets")
  else (true, u "Syntax appears valid").

Record test_patterns := {
  describe_blocks : nat;
  test_cases : nat;
  assertions_found : nat; (* the key "assertions" *)
  async_functions : nat;
  await_calls : nat;
  page_interactions : nat
}.

Definition extract_test_patterns (code : str) : test_patterns := {|
  describe_blocks := Str.count (u "describe(") code;
  test_cases := Str.count (u "it(") code + Str.count (u "test(") code;
  assertions_found := Str.count (u "expect(") code + Str.count (u ".should(") code;
  async_functions := Str.count (u "async ") code;
  await_calls := Str.count (u "await ") code;
  page_interactions := Str.count (u "page.") code + Str.count (u "cy.") code
|}.

(** The bullet of helpers.py, U+2022. *)
Definition dot : str := [8226%N].

(** [if n > 0: summary += f"<dot> {n} <what>\n"] *)
Definition summary_line (n : nat) (what : string) (summary : str) : str :=
  if 0 <? n then summary ++ dot ++ u " " ++ Str.of_nat n ++ u what ++ nl
  else summary.

Definition generate_test_summary (patterns : test_patterns) : str :=
  let summary := u "**Test Analysis:**" ++ nl ++ nl in
  let summary := summary_line (describe_blocks patterns) " test suite(s)" summary in
  let summary := summary_line (test_cases patterns) " test case(s)" summary in
  let summary := summary_line (assertions_found patterns) " assertion(s)" summary in
  let summary := summary_line (async_functions patterns) " async function(s)" summary in
  summary_line (page_interactions patterns) " page interaction(s)" summary.

Definition dangerous_chars : list char :=
  [60; 62; 38; 34; 39; 59; 40; 41; 123; 125]%N.

Definition sanitize_user_input (user_input : str) : str :=
  Str.strip
    (fold_left (fun sanitized char => replace [char] [] sanitized)
               dangerous_chars user_input).

(** One round of the loop of [create_code_diff]. *)
Definition diff_round (old_lines new_lines : list str) (diff : str) (i : nat)
  : str :=
  let old_line := nth i old_lines [] in
  let new_line := nth i new_lines [] in
  if negb (str_eqb old_line new_line)
  then
    let diff :=
      match old_line with
      | [] => diff
      | _ :: _ => diff ++ u "- " ++ old_line ++ nl
      end in
    match new_line with
    | [] => diff
    | _ :: _ => diff ++ u "+ " ++ new_line ++ nl
    end
  else diff.

Definition create_code_diff (old_code new_code : str) : str :=
  let old_lines := Str.split 10%N old_code in
  let new_lines := Str.split 10%N new_code in
  let max_lines := Nat.max (length old_lines) (length new_lines) in
  fold_left (diff_round old_lines new_lines) (seq 0 max_lines)
            (u "**Changes:**" ++ nl ++ nl).

Definition estimate_migration_effort (cypress_code : str) : str :=
  let lines := length (Str.split 10%N cypress_code) in
  let custom_commands := Str.count (u "Cypress.Commands.add") cypress_code in
  let complex_selectors :=
    Str.count (u "cy.get(") cypress_code + Str.count (u "cy.contains(") cypress_code in
  let '(effort, time) :=
    if (lines <? 50) && (custom_commands =? 0)
    then (u "Low", u "1-2 hours")
    else if (lines <? 200) && (custom_commands <? 5)
    then (u "Medium", u "1-2 days")
    else (u "High", u "3-5 days") in
  u "**Migration Effort:** " ++ effort ++ u " (~" ++ time ++ u ")" ++ nl ++ nl ++
  u "**Factors:**" ++ nl ++
  dot ++ u " " ++ Str.of_nat lines ++ u " lines of code" ++ nl ++
  dot ++ u " " ++ Str.of_nat custom_commands ++ u " custom commands" ++ nl ++
  dot ++ u " " ++ Str.of_nat complex_selectors ++ u " selector updates needed".

(** * Properties *)

Unset Implicit Arguments.

(** ** Python strings *)

Lemma str_eqb_eq (a b : str) : str_eqb a b = true <-> a = b.
Proof.
  revert b; induction a as [|x a IH]; intros [|y b]; simpl;
    try (split; [discriminate | congruence]); try tauto.
  rewrite andb_true_iff, N.eqb_eq, IH. split.
  - intros [-> ->]; reflexivity.
  - intros [= -> ->]; auto.
Qed.

Lemma str_eqb_refl (a : str) : str_eqb a a = true.
Proof. apply str_eqb_eq; reflexivity. Qed.

Lemma startswith_length (p s : str) :
  startswith p s = true -> length p <= length s.
Proof.
  revert s; induction p as [|a p IH]; intros [|b s]; simpl; intros H;
    try lia; try discriminate.
  apply andb_true_iff in H as [_ H]. apply IH in H. lia.
Qed.

(** Replacing by a text no longer than the pattern never makes the
    subject longer; [skip] characters are dropped on the way. *)
Lemma replace_from_length (old new : str) :
  length new <= length old ->
  forall s skip,
    length (replace_from old new skip s) + Nat.min skip (length s) <= length s.
Proof.
  intros Hle s; induction s as [|c s IH]; intros skip; simpl.
  - lia.
  - destruct skip as [|k].
    + destruct (startswith old (c :: s)) eqn:E.
      * apply startswith_length in E; simpl in E.
        rewrite length_app. specialize (IH (length old - 1)). lia.
      * simpl. specialize (IH 0). lia.
    + specialize (IH k). lia.
Qed.

(** Replacing an occurring pattern by a strictly shorter text shortens
    the subject. *)
Lemma replace_from_shorter (old new s : str) :
  length new < length old ->
  contains old s = true ->
  length (replace_from old new 0 s) < length s.
Proof.
  intros Hlt. induction s as [|c s IH]; intros H.
  - destruct old; simpl in *; [lia | discriminate].
  - cbn [contains] in H. cbn [replace_from].
    destruct (startswith old (c :: s)) eqn:E.
    + apply startswith_length in E. cbn [length] in E.
      rewrite length_app.
      pose proof (replace_from_length old new (Nat.lt_le_incl _ _ Hlt) s
                    (length old - 1)) as L.
      cbn [length]. lia.
    + cbn [orb] in H. apply IH in H. cbn [length]. lia.
Qed.

Lemma replace_shorter (old new s : str) :
  length new < length old ->
  contains old s = true ->
  length (replace old new s) < length s.
Proof.
  intros Hlt H. unfold replace.
  destruct old as [|o old'] eqn:E; [simpl in Hlt; lia|].
  rewrite <- E in *. now apply replace_from_shorter.
Qed.

(** ** The error monad *)

Lemma for_each_ok {A S} (xs : list A) (body : A -> S -> result S) :
  (forall x, In x xs -> forall s, exists s', body x s = Ok s') ->
  forall s, exists s', for_each xs body s = Ok s'.
Proof.
  induction xs as [|x xs IH]; intros Hb s; simpl.
  - eauto.
  - destruct (Hb x (or_introl eq_refl) s) as [s1 ->]. simpl.
    apply IH. intros y Hy. apply Hb. right; exact Hy.
Qed.

(** A loop none of whose rounds changes the state changes nothing. *)
Lemma for_each_idle {A S} (xs : list A) (body : A -> S -> result S) (s : S) :
  (forall x, In x xs -> body x s = Ok s) ->
  for_each xs body s = Ok s.
Proof.
  induction xs as [|x xs IH]; intros Hb; simpl.
  - reflexivity.
  - rewrite (Hb x (or_introl eq_refl)). simpl.
    apply IH. intros y Hy. apply Hb. right; exact Hy.
Qed.

(** ** The matcher *)

Module ReFacts.
Import Re.

Lemma star_cont {R} f (k : str -> str -> option R) s acc r :
  star f k s acc = Some r -> exists s' acc', k s' acc' = Some r.
Proof.
  revert acc; induction s as [|c s IH]; intros acc; simpl.
  - eauto.
  - destruct (f c); [|eauto].
    destruct (star f k s (c :: acc)) eqn:E.
    + intros [= <-]. eapply IH; eauto.
    + eauto.
Qed.

Lemma m_atoms_cont {R} l (k : str -> str -> option R) s acc r :
  m_atoms l s acc k = Some r -> exists s' acc', k s' acc' = Some r.
Proof.
  revert s acc; induction l as [|a l IH]; intros s acc; simpl.
  - eauto.
  - destruct a as [c|f|f|f].
    + destruct s as [|x s]; [discriminate|].
      destruct (N.eqb x c); [apply IH|discriminate].
    + destruct s as [|x s]; [discriminate|].
      destruct (f x); [apply IH|discriminate].
    + intros H. apply star_cont in H as (s' & acc' & H). eapply IH; eauto.
    + destruct s as [|x s]; [discriminate|].
      destruct (f x); [|discriminate].
      intros H. apply star_cont in H as (s' & acc' & H). eapply IH; eauto.
Qed.

Lemma m_items_cont {R} p (k : str -> list str -> option R) s caps r :
  m_items p s caps k = Some r ->
  exists s' caps',
    length caps' = ngroups p + length caps /\ k s' caps' = Some r.
Proof.
  revert s caps; induction p as [|i p IH]; intros s caps;
    cbn [m_items ngroups].
  - intros H. exists s, caps. auto.
  - destruct i as [a|body]; intros H;
      apply m_atoms_cont in H as (s' & g & H);
      apply IH in H as (s2 & caps2 & Hl & H);
      exists s2, caps2; split; auto; cbn [length] in Hl; lia.
Qed.

(** A match captures as many groups as the pattern has. *)
Lemma match_at_groups p s caps rest :
  match_at p s = Some (caps, rest) -> length caps = ngroups p.
Proof.
  unfold match_at. intros H.
  apply m_items_cont in H as (s' & caps' & Hl & [= <- <-]).
  rewrite length_rev. simpl in Hl. lia.
Qed.

Lemma scan_groups p s skip m :
  In m (scan p skip s) -> length (snd m) = ngroups p.
Proof.
  revert skip; induction s as [|c s IH]; intros skip; cbn [scan].
  - destruct skip; [|intros []].
    destruct (match_at p []) as [[caps rest]|] eqn:E; [|intros []].
    intros [<-|[]]. eapply match_at_groups; eauto.
  - destruct skip; [|apply IH].
    destruct (match_at p (c :: s)) as [[caps rest]|] eqn:E; [|apply IH].
    intros [<-|H]; [|eapply IH; eauto].
    eapply match_at_groups; eauto.
Qed.

(** With at most one group [findall] yields strings. *)
Lemma findall_str p s x :
  ngroups p <= 1 -> In x (findall p s) -> exists t, x = FStr t.
Proof.
  unfold findall. intros Hn H. apply in_map_iff in H as (m & <- & _).
  unfold found_of. destruct (ngroups p) as [|[|n]]; eauto. lia.
Qed.

(** With two groups [findall] yields pairs. *)
Lemma findall_pair p s x :
  ngroups p = 2 -> In x (findall p s) -> exists a b, x = FTuple [a; b].
Proof.
  unfold findall. intros Hn H. apply in_map_iff in H as (m & <- & Hm).
  apply scan_groups in Hm. rewrite Hn in Hm. unfold found_of. rewrite Hn.
  destruct (snd m) as [|a [|b [|c l]]]; try discriminate. eauto.
Qed.

Lemma scan_nil_search p s :
  scan p 0 s = [] <-> search p s = false.
Proof.
  induction s as [|c s IH]; simpl.
  - destruct (match_at p []) as [[caps rest]|]; split; congruence.
  - destruct (match_at p (c :: s)) as [[caps rest]|].
    + split; discriminate.
    + exact IH.
Qed.

(** [findall] finds nothing exactly when [search] fails. *)
Lemma findall_nil_search p s :
  findall p s = [] <-> search p s = false.
Proof.
  unfold findall. rewrite <- scan_nil_search.
  destruct (scan p 0 s); simpl; split; congruence.
Qed.

End ReFacts.

(** ** The converter returns *)

Section Returns.
Variable db : unicode_db.

Lemma rule1_ok p old new line (st : state) :
  ngroups p <= 1 -> exists st', rule1 p old new line st = Ok st'.
Proof.
  intros Hn. unfold rule1. apply for_each_ok. intros x Hx s.
  destruct (ReFacts.findall_str _ _ _ Hn Hx) as [t ->]. simpl. eauto.
Qed.

Lemma rule2_ok p old new (st : state) :
  ngroups p = 2 -> exists st', rule2 p old new st = Ok st'.
Proof.
  intros Hn. unfold rule2. apply for_each_ok. intros x Hx s.
  destruct (ReFacts.findall_pair _ _ _ Hn Hx) as (a & b & ->). simpl. eauto.
Qed.

Lemma flag_unidentified_ok p (st : state) :
  ngroups p <= 1 -> exists st', flag_unidentified p st = Ok st'.
Proof.
  intros Hn. unfold flag_unidentified. apply for_each_ok. intros x Hx s.
  destruct (ReFacts.findall_str _ _ _ Hn Hx) as [t ->]. simpl.
  destruct (to_flag t (fst s)); eauto.
Qed.

Lemma run_block_ok b (st : state) :
  block_wf b = true -> exists st', run_block b st = Ok st'.
Proof.
  destruct b; simpl; intros H.
  - apply rule1_ok. now apply Nat.leb_le.
  - apply rule2_ok. now apply Nat.eqb_eq.
  - apply flag_unidentified_ok. now apply Nat.leb_le.
  - eauto.
  - eauto.
Qed.

Lemma advanced_blocks_wf : forallb block_wf (advanced_blocks db) = true.
Proof. reflexivity. Qed.

Lemma advanced_ok code :
  exists st', _convert_advanced_patterns db code = Ok st'.
Proof.
  unfold _convert_advanced_patterns. apply for_each_ok. intros b Hb st.
  apply run_block_ok.
  exact (proj1 (forallb_forall _ _) advanced_blocks_wf b Hb).
Qed.

Lemma then_advanced_ok st : exists st', then_advanced db st = Ok st'.
Proof.
  unfold then_advanced. destruct (advanced_ok (fst st)) as [adv ->].
  simpl. eauto.
Qed.

Lemma dict_mem_get {V} k (d : dict V) :
  dict_mem k d = true -> exists v, dict_get k d = Ok v.
Proof.
  unfold dict_mem. induction d as [|[k' v] d IH]; simpl; [discriminate|].
  destruct (str_eqb k k'); simpl; eauto.
Qed.

Lemma apply_table_ok items st : exists st', apply_table items st = Ok st'.
Proof.
  unfold apply_table. apply for_each_ok. intros kv _ s.
  unfold apply_pair. destruct (contains (fst kv) (fst s)); eauto.
Qed.

Lemma run_rules_ok code mode : exists st, run_rules db code mode = Ok st.
Proof.
  unfold run_rules.
  destruct (str_eqb mode (u "full_conversion")).
  - match goal with |- context [for_each ?xs ?f ?s0] =>
      assert (Hloop : exists st1, for_each xs f s0 = Ok st1) end.
    { apply for_each_ok. intros category _ s.
      destruct (dict_mem category conversions) eqn:E; [|eauto].
      destruct (dict_mem_get _ _ E) as [items ->]. simpl.
      apply apply_table_ok. }
    destruct Hloop as [st1 ->]. simpl. apply then_advanced_ok.
  - destruct (dict_mem mode conversions) eqn:E; [|eauto].
    destruct (dict_mem_get _ _ E) as [items ->]. simpl.
    destruct (apply_table_ok items (code, [])) as [st1 ->]. simpl.
    apply then_advanced_ok.
Qed.

(** No call raises, whatever the text and the mode. *)
Lemma convert_total code mode :
  exists out explanation,
    convert_cypress_code db code mode = Ok (out, explanation).
Proof.
  unfold convert_cypress_code.
  destruct (run_rules_ok code mode) as [st ->]. simpl. eauto.
Qed.

End Returns.

(** ** When the converter leaves a text alone *)

Section Idle.
Variable db : unicode_db.

Lemma bind_ok_inv {A B} (m : result A) (k : A -> result B) b :
  bind m k = Ok b -> exists a, m = Ok a /\ k a = Ok b.
Proof. destruct m; simpl; [eauto | discriminate]. Qed.

(** A loop whose rounds only ever lengthen the explanations, and change
    the state only when they do, has done nothing if the explanations did
    not grow; every round then saw [P]. *)
Lemma for_each_quiet {A} (P : A -> state -> Prop) (xs : list A)
      (body : A -> state -> result state) :
  (forall x s s', In x xs -> body x s = Ok s' ->
     length (snd s) <= length (snd s') /\
     (length (snd s') = length (snd s) -> s' = s /\ P x s)) ->
  forall s s', for_each xs body s = Ok s' ->
     length (snd s) <= length (snd s') /\
     (length (snd s') = length (snd s) ->
      s' = s /\ forall x, In x xs -> P x s).
Proof.
  induction xs as [|x xs IH]; intros Hb s s'; cbn [for_each].
  - intros [= <-]. split; [lia|]. intros _. split; [reflexivity|]. intros x [].
  - intros H. apply bind_ok_inv in H as (s1 & H1 & H2).
    destruct (Hb x s s1 (or_introl eq_refl) H1) as [L1 Q1].
    assert (Hb' : forall y t t', In y xs -> body y t = Ok t' ->
              length (snd t) <= length (snd t') /\
              (length (snd t') = length (snd t) -> t' = t /\ P y t)).
    { intros y t t' Hy. apply Hb. right; exact Hy. }
    destruct (IH Hb' s1 s' H2) as [L2 Q2].
    split; [lia|]. intros E.
    assert (E1 : length (snd s1) = length (snd s)) by lia.
    destruct (Q1 E1) as [-> Px].
    destruct (Q2 E) as [-> Pxs].
    split; [reflexivity|]. intros y [<-|Hy]; auto.
Qed.

Lemma rewrite_grows old new line (st : state) :
  length (snd (rewrite old new line st)) = S (length (snd st)).
Proof. unfold rewrite. cbn [snd]. rewrite length_app. simpl. lia. Qed.

(** *** Blocks of the advanced pass *)

Lemma run_block_idle b code ex :
  block_idle b code = true -> run_block b (code, ex) = Ok (code, ex).
Proof.
  destruct b; cbn [block_idle block_pattern run_block]; intros H.
  - apply negb_true_iff, ReFacts.findall_nil_search in H.
    unfold rule1. cbn [fst]. rewrite H. reflexivity.
  - apply negb_true_iff, ReFacts.findall_nil_search in H.
    unfold rule2. cbn [fst]. rewrite H. reflexivity.
  - unfold flag_unidentified. cbn [fst]. apply for_each_idle. intros x Hx.
    pose proof (proj1 (forallb_forall _ _) H x Hx) as Hx'.
    destruct x as [c|gs]; [|discriminate]. cbn [as_str bind fst].
    apply negb_true_iff in Hx'. rewrite Hx'. reflexivity.
  - apply negb_true_iff in H. unfold sub_if. cbn [fst]. rewrite H. reflexivity.
  - apply negb_true_iff in H. unfold note_if. cbn [fst]. rewrite H. reflexivity.
Qed.

Lemma none_found p code :
  (forall x, In x (findall p code) -> False) -> negb (search p code) = true.
Proof.
  intros H. apply negb_true_iff, ReFacts.findall_nil_search.
  destruct (findall p code) as [|x l]; [reflexivity|].
  destruct (H x (or_introl eq_refl)).
Qed.

Lemma run_block_quiet b (s s' : state) :
  run_block b s = Ok s' ->
  length (snd s) <= length (snd s') /\
  (length (snd s') = length (snd s) ->
   s' = s /\ block_idle b (fst s) = true).
Proof.
  destruct b; cbn [block_idle block_pattern run_block].
  - unfold rule1. intros H.
    apply (for_each_quiet (fun _ _ => False)) in H.
    + destruct H as [L Q]. split; [exact L|]. intros E.
      destruct (Q E) as [-> F]. split; [reflexivity|]. now apply none_found.
    + intros x t t' _ Hx. apply bind_ok_inv in Hx as (m & _ & [= <-]).
      rewrite rewrite_grows. split; lia.
  - unfold rule2. intros H.
    apply (for_each_quiet (fun _ _ => False)) in H.
    + destruct H as [L Q]. split; [exact L|]. intros E.
      destruct (Q E) as [-> F]. split; [reflexivity|]. now apply none_found.
    + intros x t t' _ Hx. apply bind_ok_inv in Hx as ([a c] & _ & [= <-]).
      rewrite rewrite_grows. split; lia.
  - unfold flag_unidentified. intros H.
    apply (for_each_quiet
             (fun x t => match x with
                         | FStr c => to_flag c (fst t) = false
                         | FTuple _ => False
                         end)) in H.
    + destruct H as [L Q]. split; [exact L|]. intros E.
      destruct (Q E) as [-> F]. split; [reflexivity|].
      apply forallb_forall. intros x Hx. specialize (F x Hx).
      destruct x as [c|gs]; [|destruct F]. now rewrite F.
    + intros x t t' _ Hx. apply bind_ok_inv in Hx as (c & Hc & Hx).
      destruct x as [c0|gs]; [|discriminate]. injection Hc as ->.
      destruct (to_flag c (fst t)) eqn:Et.
      * injection Hx as <-. rewrite rewrite_grows. split; lia.
      * injection Hx as <-. split; [lia|]. auto.
  - unfold sub_if. intros [= <-].
    destruct (search p (fst s)); cbn [snd negb].
    + rewrite length_app. simpl. split; lia.
    + split; [lia|]. auto.
  - unfold note_if. intros [= <-].
    destruct (search p (fst s)); cbn [snd negb].
    + rewrite length_app. simpl. split; lia.
    + split; [lia|]. auto.
Qed.

Lemma advanced_idle code :
  forallb (fun b => block_idle b code) (advanced_blocks db) = true ->
  _convert_advanced_patterns db code = Ok (code, []).
Proof.
  intros H. unfold _convert_advanced_patterns. apply for_each_idle.
  intros b Hb. apply run_block_idle.
  exact (proj1 (forallb_forall _ _) H b Hb).
Qed.

Lemma advanced_quiet code adv :
  _convert_advanced_patterns db code = Ok adv ->
  snd adv = [] ->
  adv = (code, []) /\
  forallb (fun b => block_idle b code) (advanced_blocks db) = true.
Proof.
  unfold _convert_advanced_patterns. intros H E.
  apply (for_each_quiet (fun b t => block_idle b (fst t) = true)) in H.
  - destruct H as [_ Q]. rewrite E in Q. destruct (Q eq_refl) as [-> F].
    split; [reflexivity|]. apply forallb_forall. exact F.
  - intros b t t' _. apply run_block_quiet.
Qed.

End Idle.

(** ** The rule tables *)

Section Tables.
Variable db : unicode_db.

Lemma apply_table_idle items code ex :
  keys_absent items code = true ->
  apply_table items (code, ex) = Ok (code, ex).
Proof.
  intros H. unfold apply_table. apply for_each_idle. intros kv Hkv.
  pose proof (proj1 (forallb_forall _ _) H kv Hkv) as E.
  apply negb_true_iff in E. unfold apply_pair. cbn [fst]. now rewrite E.
Qed.

Lemma apply_table_quiet items (s s' : state) :
  apply_table items s = Ok s' ->
  length (snd s) <= length (snd s') /\
  (length (snd s') = length (snd s) ->
   s' = s /\ keys_absent items (fst s) = true).
Proof.
  unfold apply_table. intros H.
  apply (for_each_quiet (fun kv t => contains (fst kv) (fst t) = false)) in H.
  - destruct H as [L Q]. split; [exact L|]. intros E.
    destruct (Q E) as [-> F]. split; [reflexivity|].
    apply forallb_forall. intros kv Hkv. now rewrite (F kv Hkv).
  - intros kv t t' _. unfold apply_pair.
    destruct (contains (fst kv) (fst t)); intros [= <-].
    + rewrite rewrite_grows. split; lia.
    + split; [lia|]. auto.
Qed.

Lemma dict_get_absent {V} k (d : dict V) :
  dict_mem k d = false -> dict_get k d = Raise KeyError.
Proof.
  unfold dict_mem. induction d as [|[k' v] d IH]; simpl; [reflexivity|].
  destruct (str_eqb k k'); simpl; [discriminate | exact IH].
Qed.

(** The loop over [categories_to_apply] walks the tables of
    [tables_of] one after the other. *)
Lemma categories_loop (cats : list str) (st : state) :
  for_each cats
    (fun category st =>
       if dict_mem category conversions
       then items <- dict_get category conversions ;; apply_table items st
       else Ok st) st =
  for_each
    (flat_map (fun category =>
                 match dict_get category conversions with
                 | Ok items => [items]
                 | Raise _ => []
                 end) cats) apply_table st.
Proof.
  revert st; induction cats as [|c cats IH]; intros st; cbn [for_each flat_map].
  - reflexivity.
  - destruct (dict_mem c conversions) eqn:E.
    + destruct (dict_mem_get _ _ E) as [items ->]. cbn [bind app for_each].
      destruct (apply_table items st); cbn [bind]; auto.
    + rewrite (dict_get_absent _ _ E). cbn [bind app]. apply IH.
Qed.

Lemma run_rules_eq code mode :
  run_rules db code mode =
  if recognized_mode mode
  then st <- for_each (tables_of mode) apply_table (code, []) ;;
       then_advanced db st
  else Ok (code, []).
Proof.
  unfold run_rules, recognized_mode, tables_of.
  destruct (str_eqb mode (u "full_conversion")); cbn [orb].
  - rewrite categories_loop. reflexivity.
  - destruct (dict_mem mode conversions) eqn:E.
    + destruct (dict_mem_get _ _ E) as [items ->]. cbn [bind for_each].
      destruct (apply_table items (code, [])); reflexivity.
    + reflexivity.
Qed.

Lemma run_rules_idle code mode :
  rules_idle db mode code = true ->
  run_rules db code mode = Ok (code, []).
Proof.
  unfold rules_idle. intros H. apply andb_true_iff in H as [Ht Ha].
  rewrite run_rules_eq. destruct (recognized_mode mode); [|reflexivity].
  cbn [negb orb] in Ha.
  rewrite for_each_idle.
  - cbn [bind]. unfold then_advanced. cbn [fst snd].
    rewrite (advanced_idle db code Ha). reflexivity.
  - intros items Hi. apply apply_table_idle.
    exact (proj1 (forallb_forall _ _) Ht items Hi).
Qed.

Lemma run_rules_quiet code mode (s' : state) :
  run_rules db code mode = Ok s' ->
  snd s' = [] ->
  s' = (code, []) /\ rules_idle db mode code = true.
Proof.
  rewrite run_rules_eq. unfold rules_idle.
  destruct (recognized_mode mode) eqn:Er; cbn [negb orb].
  - intros H E. apply bind_ok_inv in H as (s1 & H1 & H2).
    unfold then_advanced in H2.
    apply bind_ok_inv in H2 as (adv & Hadv & [= <-]). cbn [snd] in E.
    apply app_eq_nil in E as [E1 E2].
    apply (for_each_quiet (fun items t => keys_absent items (fst t) = true)) in H1.
    + destruct H1 as [_ Q]. rewrite E1 in Q. destruct (Q eq_refl) as [-> F].
      cbn [fst] in Hadv.
      destruct (advanced_quiet db code adv Hadv E2) as [-> Hb].
      split; [reflexivity|]. rewrite Hb, andb_true_r.
      apply forallb_forall. exact F.
    + intros items t t' _. apply apply_table_quiet.
  - intros [= <-] _. split; [reflexivity|].
    unfold recognized_mode in Er. apply orb_false_iff in Er as [E1 E2].
    unfold tables_of. rewrite E1, (dict_get_absent _ _ E2). reflexivity.
Qed.

Lemma render_no_changes parts : render parts = no_changes <-> parts = [].
Proof.
  destruct parts as [|a l]; cbn [render]; split; try reflexivity; try discriminate.
Qed.

Lemma add_boilerplate_quiet mode (st : state) :
  snd (add_boilerplate mode st) = [] ->
  add_boilerplate mode st = st /\ snd st = [] /\
  lacks_await (fst st) = false /\
  (wants_import mode (fst st) && negb (startswith (u "import") (fst st))) = false.
Proof.
  unfold add_boilerplate.
  destruct (lacks_await (fst st)) eqn:Ea.
  - cbn [fst snd].
    destruct (wants_import mode _); [destruct (negb _)|]; cbn [snd];
      intros E; apply app_eq_nil in E; destruct E as [E1 E2];
      try discriminate; apply app_eq_nil in E1; destruct E1; discriminate.
  - destruct (wants_import mode (fst st)); cbn [andb];
      [destruct (negb _); cbn [snd]|]; intros E; auto.
    apply app_eq_nil in E as [_ E]. discriminate.
Qed.

Lemma add_boilerplate_idle mode code :
  lacks_await code = false ->
  (wants_import mode code && negb (startswith (u "import") code)) = false ->
  add_boilerplate mode (code, []) = (code, []).
Proof.
  unfold add_boilerplate. cbn [fst snd]. intros Ha H. rewrite Ha.
  cbn [fst snd].
  destruct (wants_import mode code); [|reflexivity].
  cbn [andb] in H. now rewrite H.
Qed.

Lemma fix_before_each_fixed code :
  fix_before_each code = code <->
  contains (u "test.test.beforeEach") code = false.
Proof.
  unfold fix_before_each.
  destruct (contains (u "test.test.beforeEach") code) eqn:E.
  - split; [|discriminate]. intros H.
    apply (replace_shorter _ (u "test.beforeEach")) in E.
    + rewrite H in E. lia.
    + vm_compute. lia.
  - tauto.
Qed.

(** The converter hands a text back unchanged, with nothing to explain,
    exactly when the text is settled. *)
Lemma convert_fixed_iff code mode :
  convert_cypress_code db code mode = Ok (code, no_changes) <->
  settled db mode code = true.
Proof.
  unfold convert_cypress_code, settled. split.
  - intros H. apply bind_ok_inv in H as (st & Hr & [= Hc He]).
    apply render_no_changes in He.
    apply add_boilerplate_quiet in He as (Hb & Hs & Ha & Hi).
    destruct (run_rules_quiet code mode st Hr Hs) as [-> Hidle].
    rewrite Hb in Hc. cbn [fst] in Hc, Ha, Hi.
    apply fix_before_each_fixed in Hc.
    rewrite Hidle, Ha, Hi, Hc. reflexivity.
  - intros H. do 3 (apply andb_true_iff in H as [H ?]).
    repeat match goal with E : negb _ = true |- _ => apply negb_true_iff in E end.
    rewrite (run_rules_idle code mode H). cbn [bind].
    rewrite add_boilerplate_idle by assumption. cbn [fst snd render].
    f_equal. f_equal. now apply fix_before_each_fixed.
Qed.

End Tables.

(** * The converter against its specification *)

Lemma recognized_modes mode :
  recognized_mode mode = true ->
  In mode (full_conversion :: categories_to_apply).
Proof.
  unfold recognized_mode, dict_mem. cbn [conversions existsb fst].
  intros H.
  repeat (apply orb_true_iff in H as [H|H];
          [apply str_eqb_eq in H; subst mode; cbn; tauto|]).
  discriminate.
Qed.

Lemma unrecognized_not_full mode :
  recognized_mode mode = false -> str_eqb mode (u "full_conversion") = false.
Proof. unfold recognized_mode. intros H. now apply orb_false_iff in H. Qed.

(** C1 (as amended).  A second [full_conversion] pass over the output of a
    first one hands that output back unchanged, with nothing to explain,
    exactly when the output is settled: no table key occurs in it, every
    block of the advanced pass is idle on it, no boilerplate is due and
    it holds no [test.test.beforeEach].  A fixed point after one pass is
    not guaranteed. *)
Theorem second_pass_fixed_iff_settled (db : unicode_db) (code out explanation : str) :
  convert_cypress_code db code full_conversion = Ok (out, explanation) ->
  (convert_cypress_code db out full_conversion = Ok (out, no_changes) <->
   settled db full_conversion out = true).
Proof. intros _. apply convert_fixed_iff. Qed.

Lemma second_pass_fixed_iff_settled_witness :
  convert_cypress_code ascii_db (u "cy.visit('/login')") full_conversion =
    Ok (u "await page.goto('/login')",
        u "**Conversion Changes:**" ++ nl ++
        rule_line (u "cy.visit(") (u "await page.goto(")) /\
  (convert_cypress_code ascii_db (u "await page.goto('/login')") full_conversion =
     Ok (u "await page.goto('/login')", no_changes) <->
   settled ascii_db full_conversion (u "await page.goto('/login')") = true).
Proof.
  split.
  - vm_compute. reflexivity.
  - apply (second_pass_fixed_iff_settled ascii_db (u "cy.visit('/login')")
             (u "await page.goto('/login')")
             (u "**Conversion Changes:**" ++ nl ++
              rule_line (u "cy.visit(") (u "await page.goto("))).
    vm_compute. reflexivity.
Defined.

(** C1 fails as stated: the output of a first pass over a [describe(]
    block is converted again by a second pass, which reports a change. *)
Lemma second_pass_converts_again :
  convert_cypress_code ascii_db (u "describe('x', () => {})") full_conversion =
    Ok (u "test.describe('x', () => {})",
        u "**Conversion Changes:**" ++ nl ++
        rule_line (u "describe(") (u "test.describe(")) /\
  convert_cypress_code ascii_db (u "test.describe('x', () => {})") full_conversion =
    Ok (u "test.test.describe('x', () => {})",
        u "**Conversion Changes:**" ++ nl ++
        rule_line (u "describe(") (u "test.describe(")) /\
  u "test.test.describe('x', () => {})" <> u "test.describe('x', () => {})" /\
  u "**Conversion Changes:**" ++ nl ++
    rule_line (u "describe(") (u "test.describe(") <> no_changes.
Proof.
  repeat split; try (vm_compute; reflexivity); vm_compute; discriminate.
Qed.

(** C2 (the code departs from it).  Under [full_conversion] the chain
    [cy.wait('@getData').its('response.statusCode').should('eq', 200)] is
    not converted by the composite rule: the table entry [it(] has
    already turned [cy.wait(] into [cy.watest(], the call is flagged as
    an unknown command, and the generic [.should('eq', N)] rule is
    applied to the rest.  Under [waiting], whose table leaves the chain
    alone, the composite rule alone converts it. *)
Theorem full_conversion_misses_composite_rule (db : unicode_db) :
  convert_cypress_code db
    (u "cy.wait('@getData').its('response.statusCode').should('eq', 200)")
    full_conversion =
    Ok (u "import { test, expect } from '@playwright/test';" ++ nl ++ nl ++
        u "// TODO: Manual review needed - possible custom command: cy.watest('@getData')// Use response object directly === 200",
        u "**Conversion Changes:**" ++ nl ++
        join nl [
          rule_line (u "it(") (u "test(");
          rule_line (u ".its('response.statusCode')") (u "// Use response object directly");
          rule_line (u "cy.watest('@getData')")
            (u "// TODO: Manual review needed - possible custom command: cy.watest('@getData')");
          rule_line (u ".should('eq', 200)") (u " === 200") ++ u " (direct comparison)";
          bullet ++ u " Added required Playwright imports"
        ]) /\
  convert_cypress_code db
    (u "cy.wait('@getData').its('response.statusCode').should('eq', 200)")
    (u "waiting") =
    Ok (u "expect((await page.waitForResponse('**/getData**')).status()).toBe(200)",
        u "**Conversion Changes:**" ++ nl ++
        rule_line
          (u "cy.wait('@getData').its('response.statusCode').should('eq', 200)")
          (u "expect((await page.waitForResponse('**/getData**')).status()).toBe(200)")).
Proof. split; vm_compute; reflexivity. Qed.

(** C3 (as amended).  A mode that is neither [full_conversion] nor a
    category name does not fail the call: no rule is applied and the
    converter returns its report, the text with at most the async note
    put in front and [test.test.beforeEach] repaired. *)
Theorem unknown_mode_applies_no_rule (db : unicode_db) (code mode : str) :
  recognized_mode mode = false ->
  convert_cypress_code db code mode =
  Ok (if lacks_await code
      then (fix_before_each (u "// Add async/await syntax" ++ nl ++ code),
            u "**Conversion Changes:**" ++ nl ++
            bullet ++ u " Added async/await syntax requirement")
      else (fix_before_each code, no_changes)).
Proof.
  intros H. unfold convert_cypress_code. rewrite run_rules_eq, H. cbn [bind].
  unfold add_boilerplate, wants_import.
  rewrite (unrecognized_not_full mode H). cbn [fst snd andb].
  destruct (lacks_await code); reflexivity.
Qed.

Lemma unknown_mode_applies_no_rule_witness :
  recognized_mode (u "everything") = false /\
  convert_cypress_code ascii_db (u "cy.get('#a').click()") (u "everything") =
  Ok (if lacks_await (u "cy.get('#a').click()")
      then (fix_before_each (u "// Add async/await syntax" ++ nl ++ u "cy.get('#a').click()"),
            u "**Conversion Changes:**" ++ nl ++
            bullet ++ u " Added async/await syntax requirement")
      else (fix_before_each (u "cy.get('#a').click()"), no_changes)).
Proof.
  split.
  - reflexivity.
  - apply (unknown_mode_applies_no_rule ascii_db). reflexivity.
Defined.

(** C3 fails as stated: with an unknown mode the call returns a report;
    the model has no exception for a bad mode because the source raises
    none. *)
Lemma unknown_mode_returns_report :
  recognized_mode (u "everything") = false /\
  convert_cypress_code ascii_db (u "cy.get('#a').click()") (u "everything") =
    Ok (u "cy.get('#a').click()", no_changes).
Proof. split; vm_compute; reflexivity. Qed.

(** C5 (as amended).  A settled text, one to which no rule of the mode
    applies, which needs neither the async note nor the import line and
    holds no [test.test.beforeEach], is returned as it is with nothing to
    explain, on the first run and so on every further one. *)
Theorem settled_text_unchanged (db : unicode_db) (code mode : str) :
  settled db mode code = true ->
  convert_cypress_code db code mode = Ok (code, no_changes).
Proof. apply convert_fixed_iff. Qed.

Lemma settled_text_unchanged_witness :
  settled ascii_db full_conversion (u "const total = a + b;") = true /\
  convert_cypress_code ascii_db (u "const total = a + b;") full_conversion =
    Ok (u "const total = a + b;", no_changes).
Proof.
  split.
  - vm_compute. reflexivity.
  - apply (settled_text_unchanged ascii_db). vm_compute. reflexivity.
Defined.

(** C5 fails as stated: [page.title()] holds nothing of Cypress, no rule
    applies to it, and still the converter puts the async note in front
    and reports a change. *)
Lemma plain_text_gets_async_note :
  rules_idle ascii_db full_conversion (u "page.title()") = true /\
  convert_cypress_code ascii_db (u "page.title()") full_conversion =
    Ok (u "// Add async/await syntax" ++ nl ++ u "page.title()",
        u "**Conversion Changes:**" ++ nl ++
        bullet ++ u " Added async/await syntax requirement") /\
  u "// Add async/await syntax" ++ nl ++ u "page.title()" <> u "page.title()".
Proof.
  repeat split; try (vm_compute; reflexivity). vm_compute. discriminate.
Qed.

(** C6 (the code departs from it).  Under [full_conversion] the table
    entry [cy.url()] rewrites the receiver before any URL rule sees the
    chain, so [cy.url().should('include', '/dashboard')] comes out without
    [toHaveURL].  Under [waiting] the URL rule of the advanced pass fires;
    [re.escape] leaves the slash as it is. *)
Theorem url_include_lost_in_full_conversion (db : unicode_db) :
  convert_cypress_code db (u "cy.url().should('include', '/dashboard')")
    full_conversion =
    Ok (u "// Add async/await syntax" ++ nl ++
        u "page.url().should('include', '/dashboard')",
        u "**Conversion Changes:**" ++ nl ++
        join nl [rule_line (u "cy.url()") (u "page.url()");
                 bullet ++ u " Added async/await syntax requirement"]) /\
  contains (u "await expect(page).toHaveURL(")
    (u "// Add async/await syntax" ++ nl ++
     u "page.url().should('include', '/dashboard')") = false /\
  convert_cypress_code db (u "cy.url().should('include', '/dashboard')")
    (u "waiting") =
    Ok (u "await expect(page).toHaveURL(/.*/dashboard.*/)",
        u "**Conversion Changes:**" ++ nl ++
        rule_line (u "cy.url().should('include', '/dashboard')")
          (u "await expect(page).toHaveURL(/.*/dashboard.*/)")).
Proof. repeat split; vm_compute; reflexivity. Qed.

(** C7 (the code departs from it).  Under [full_conversion] the table
    entry [it(] turns [cy.wait(3000)] into [cy.watest(3000)], which is then
    flagged as an unknown command; no [waitForTimeout] and no advisory
    appear.  Under [waiting] the fixed wait is converted with its
    advisory. *)
Theorem fixed_wait_lost_in_full_conversion (db : unicode_db) :
  convert_cypress_code db (u "cy.wait(3000)") full_conversion =
    Ok (u "import { test, expect } from '@playwright/test';" ++ nl ++ nl ++
        u "// TODO: Manual review needed - possible custom command: cy.watest(3000)",
        u "**Conversion Changes:**" ++ nl ++
        join nl [
          rule_line (u "it(") (u "test(");
          rule_line (u "cy.watest(3000)")
            (u "// TODO: Manual review needed - possible custom command: cy.watest(3000)");
          bullet ++ u " Added required Playwright imports"
        ]) /\
  contains (u "await page.waitForTimeout(3000)")
    (u "import { test, expect } from '@playwright/test';" ++ nl ++ nl ++
     u "// TODO: Manual review needed - possible custom command: cy.watest(3000)") = false /\
  convert_cypress_code db (u "cy.wait(3000)") (u "waiting") =
    Ok (u "await page.waitForTimeout(3000)",
        u "**Conversion Changes:**" ++ nl ++
        rule_line (u "cy.wait(3000)") (u "await page.waitForTimeout(3000)") ++
        u " (consider using auto-wait instead)").
Proof. repeat split; vm_compute; reflexivity. Qed.

(** C8.  For every text and every recognized mode the converter returns a
    report; none of its lookups, unpackings or string operations raises. *)
Theorem convert_never_raises (db : unicode_db) (code mode : str) :
  recognized_mode mode = true ->
  exists out explanation,
    convert_cypress_code db code mode = Ok (out, explanation).
Proof. intros _. apply convert_total. Qed.

Lemma convert_never_raises_witness :
  recognized_mode (u "advanced") = true /\
  exists out explanation,
    convert_cypress_code ascii_db (u "cy.contains('a', cy.wait('@x)).each(($") (u "advanced") =
    Ok (out, explanation).
Proof.
  split.
  - reflexivity.
  - apply (convert_never_raises ascii_db). reflexivity.
Defined.

(** C10 (the code departs from it).  The repair replaces the occurrences
    of [test.test.beforeEach] once, left to right; where [test.] stood
    three times in a row the result holds [test.test.beforeEach] again.
    Under [full_conversion] the tables prepend [test.] to [beforeEach(]
    twice, so a hook already written as [test.beforeEach(] comes out with
    the artifact, while a bare [beforeEach(] is repaired. *)
Theorem before_each_artifact_survives (db : unicode_db) :
  convert_cypress_code db (u "test.beforeEach(() => {})") full_conversion =
    Ok (u "test.test.beforeEach(async ({ page }) => {async ({ page }) => {() => {})",
        u "**Conversion Changes:**" ++ nl ++
        join nl [
          rule_line (u "beforeEach(") (u "test.beforeEach(async ({ page }) => {");
          rule_line (u "beforeEach(") (u "test.beforeEach(async ({ page }) => {")
        ]) /\
  contains (u "test.test.beforeEach")
    (u "test.test.beforeEach(async ({ page }) => {async ({ page }) => {() => {})") = true /\
  convert_cypress_code db (u "beforeEach(() => {})") full_conversion =
    Ok (u "test.beforeEach(async ({ page }) => {async ({ page }) => {() => {})",
        u "**Conversion Changes:**" ++ nl ++
        join nl [
          rule_line (u "beforeEach(") (u "test.beforeEach(async ({ page }) => {");
          rule_line (u "beforeEach(") (u "test.beforeEach(async ({ page }) => {")
        ]).
Proof. repeat split; vm_compute; reflexivity. Qed.

(** * Further properties of the code *)

(** ** More on Python strings *)

Lemma startswith_refl (s t : str) : startswith s (s ++ t) = true.
Proof.
  induction s as [|a s IH]; simpl; [reflexivity|].
  now rewrite N.eqb_refl, IH.
Qed.

Lemma startswith_app (a b s : str) :
  startswith (a ++ b) s = true -> startswith a s = true.
Proof.
  revert s; induction a as [|x a IH]; intros [|y s]; simpl; auto.
  intros H. apply andb_true_iff in H as [-> H]. simpl. eauto.
Qed.

(** What contains a text contains its beginning. *)
Lemma contains_app (a b s : str) :
  contains (a ++ b) s = true -> contains a s = true.
Proof.
  induction s as [|y s IH]; cbn [contains]; intros H.
  - rewrite orb_false_r in *. eapply startswith_app; eauto.
  - apply orb_true_iff in H as [H|H].
    + apply startswith_app in H. now rewrite H.
    + rewrite (IH H). apply orb_true_r.
Qed.

Lemma replace_from_absent (old new s : str) :
  contains old s = false -> replace_from old new 0 s = s.
Proof.
  induction s as [|c s IH]; cbn [contains replace_from]; intros H.
  - reflexivity.
  - apply orb_false_iff in H as [H1 H2]. rewrite H1, (IH H2). reflexivity.
Qed.

(** Replacing a text that does not occur changes nothing. *)
Lemma replace_absent (old new s : str) :
  contains old s = false -> replace old new s = s.
Proof.
  intros H. unfold replace. destruct old as [|o old'] eqn:E.
  - destruct s; discriminate.
  - now apply replace_from_absent.
Qed.

Lemma replace_char (c : char) (s : str) :
  replace [c] [] s = filter (fun x => negb (N.eqb c x)) s.
Proof.
  unfold replace.
  induction s as [|a s IH]; cbn [replace_from filter startswith length Nat.sub].
  - reflexivity.
  - rewrite andb_true_r. destruct (N.eqb c a); cbn [negb app]; now rewrite IH.
Qed.

Lemma count_char (c : char) (s : str) :
  Str.count [c] s = count_occ N.eq_dec s c.
Proof.
  unfold Str.count.
  induction s as [|a s IH];
    cbn [Str.count_from count_occ startswith length Nat.sub].
  - reflexivity.
  - rewrite andb_true_r. destruct (N.eq_dec a c) as [->|Hne].
    + now rewrite N.eqb_refl, IH.
    + destruct (N.eqb c a) eqn:E; [|exact IH].
      apply N.eqb_eq in E. congruence.
Qed.

Lemma count_from_zero (sub s : str) :
  sub <> [] ->
  (Str.count_from sub 0 s = 0 <-> contains sub s = false).
Proof.
  intros Hs. induction s as [|a s IH]; cbn [Str.count_from contains].
  - destruct sub; [congruence|]. simpl. tauto.
  - destruct (startswith sub (a :: s)); cbn [orb].
    + split; discriminate.
    + exact IH.
Qed.

(** A text is counted zero times exactly when it does not occur. *)
Lemma count_zero (sub s : str) :
  sub <> [] -> (Str.count sub s = 0 <-> contains sub s = false).
Proof.
  intros H. unfold Str.count. destruct sub eqn:E; [congruence|].
  rewrite <- E in *. now apply count_from_zero.
Qed.

(** ** src/utils/helpers.py *)

Lemma sanitize_loop_in (cs : list char) (s : str) (x : char) :
  In x (fold_left (fun sanitized char => replace [char] [] sanitized) cs s) <->
  In x s /\ ~ In x cs.
Proof.
  revert s; induction cs as [|c cs IH]; intros s; cbn [fold_left In].
  - tauto.
  - rewrite IH, replace_char, filter_In, negb_true_iff, N.eqb_neq. tauto.
Qed.

Lemma lstrip_incl (s : str) (x : char) : In x (Str.lstrip s) -> In x s.
Proof.
  induction s as [|a s IH]; simpl; auto.
  destruct (space a); simpl; auto.
Qed.

Lemma strip_incl (s : str) (x : char) : In x (Str.strip s) -> In x s.
Proof.
  unfold Str.strip. intros H.
  apply in_rev, lstrip_incl, in_rev, lstrip_incl in H. exact H.
Qed.

Lemma lstrip_fixed (s : str) :
  match s with [] => True | a :: _ => space a = false end ->
  Str.lstrip s = s.
Proof. destruct s as [|a s]; simpl; auto. now intros ->. Qed.

Lemma lstrip_head (s : str) :
  match Str.lstrip s with [] => True | a :: _ => space a = false end.
Proof.
  induction s as [|a s IH]; simpl; auto.
  destruct (space a) eqn:E; auto.
Qed.

Lemma lstrip_keeps_last (w : str) (h : char) :
  space h = false -> exists w', Str.lstrip (w ++ [h]) = w' ++ [h].
Proof.
  intros Hh. induction w as [|a w IH]; simpl.
  - rewrite Hh. now exists [].
  - destruct (space a); [exact IH|]. now exists (a :: w).
Qed.

Lemma strip_head (s : str) :
  match Str.strip s with [] => True | a :: _ => space a = false end.
Proof.
  unfold Str.strip. pose proof (lstrip_head s) as H.
  destruct (Str.lstrip s) as [|h t]; [exact I|].
  cbn [rev]. destruct (lstrip_keeps_last (rev t) h H) as [w' ->].
  rewrite rev_app_distr. exact H.
Qed.

Lemma strip_strip (s : str) : Str.strip (Str.strip s) = Str.strip s.
Proof.
  assert (E : Str.lstrip (Str.strip s) = Str.strip s)
    by apply lstrip_fixed, strip_head.
  unfold Str.strip at 1. rewrite E.
  unfold Str.strip. rewrite rev_involutive.
  rewrite (lstrip_fixed _ (lstrip_head _)). reflexivity.
Qed.

Lemma sanitized_has_none (user_input : str) (c : char) :
  In c dangerous_chars -> ~ In c (sanitize_user_input user_input).
Proof.
  intros Hc H. unfold sanitize_user_input in H.
  apply strip_incl, sanitize_loop_in in H. tauto.
Qed.

(** X1.  Whatever the input, the sanitized text holds none of the ten
    characters the function removes. *)
Theorem sanitize_removes_dangerous (user_input : str) :
  Forall (fun c => ~ In c (sanitize_user_input user_input)) dangerous_chars.
Proof. apply Forall_forall. intros c. apply sanitized_has_none. Qed.

(** X2.  Sanitizing twice is sanitizing once. *)
Theorem sanitize_idempotent (user_input : str) :
  sanitize_user_input (sanitize_user_input user_input) =
  sanitize_user_input user_input.
Proof.
  set (t := sanitize_user_input user_input).
  assert (Ht : forall c, In c dangerous_chars -> ~ In c t).
  { intros c. apply sanitized_has_none. }
  assert (L : forall cs, (forall c, In c cs -> ~ In c t) ->
            fold_left (fun sanitized char => replace [char] [] sanitized) cs t = t).
  { induction cs as [|c cs IH]; intros Hcs; cbn [fold_left]; [reflexivity|].
    rewrite replace_char.
    assert (F : filter (fun x => negb (N.eqb c x)) t = t).
    { apply forallb_filter_id, forallb_forall. intros x Hx.
      apply negb_true_iff, N.eqb_neq. intros ->.
      exact (Hcs x (or_introl eq_refl) Hx). }
    rewrite F. apply IH. intros d Hd. apply Hcs. now right. }
  unfold sanitize_user_input at 1. fold t. rewrite (L _ Ht).
  unfold t, sanitize_user_input. apply strip_strip.
Qed.

(** X3.  The syntax check looks at nothing but how often each bracket
    occurs: any rearrangement of the characters of a text gets the verdict
    of the text, so closing brackets that come before their opening ones
    pass. *)
Theorem validate_blind_to_order (code code' : str) :
  Permutation code code' ->
  validate_javascript_syntax code = validate_javascript_syntax code'.
Proof.
  intros P. unfold validate_javascript_syntax.
  change (u "(") with [40%N]. change (u ")") with [41%N].
  change (u "{") with [123%N]. change (u "}") with [125%N].
  change (u "[") with [91%N]. change (u "]") with [93%N].
  rewrite !count_char.
  pose proof (proj1 (Permutation_count_occ N.eq_dec code code') P) as E.
  now rewrite !E.
Qed.

Lemma validate_blind_to_order_witness :
  Permutation (u "f(x)") (u ")x(f") /\
  validate_javascript_syntax (u "f(x)") = validate_javascript_syntax (u ")x(f").
Proof.
  assert (P : Permutation (u "f(x)") (u ")x(f")).
  { change (Permutation [102; 40; 120; 41]%N [41; 120; 40; 102]%N).
    apply (Permutation_rev [102; 40; 120; 41]%N). }
  split.
  - exact P.
  - apply (validate_blind_to_order _ _ P).
Defined.

Lemma split_nonempty (sep : char) (s : str) : Str.split sep s <> [].
Proof.
  destruct s as [|x s]; simpl; [discriminate|].
  destruct (N.eqb x sep); [discriminate|].
  destruct (Str.split sep s); discriminate.
Qed.

Lemma split_app_sep (sep : char) (s : str) :
  Str.split sep (s ++ [sep]) = Str.split sep s ++ [[]].
Proof.
  induction s as [|x s IH]; cbn [app Str.split].
  - now rewrite N.eqb_refl.
  - destruct (N.eqb x sep); rewrite IH; [reflexivity|].
    pose proof (split_nonempty sep s) as H.
    destruct (Str.split sep s) as [|l ls]; [congruence|reflexivity].
Qed.

(** Separators at the end of a text only add empty lines. *)
Lemma split_app_seps (sep : char) (s : str) (k : nat) :
  Str.split sep (s ++ repeat sep k) = Str.split sep s ++ repeat [] k.
Proof.
  revert s; induction k as [|k IH]; intros s; cbn [repeat].
  - now rewrite !app_nil_r.
  - change (s ++ sep :: repeat sep k) with (s ++ [sep] ++ repeat sep k).
    rewrite app_assoc, IH, split_app_sep, <- app_assoc. reflexivity.
Qed.

Lemma nth_padded (ls : list str) (k i : nat) :
  nth i (ls ++ repeat [] k) [] = nth i ls [].
Proof.
  destruct (Nat.lt_ge_cases i (length ls)) as [H|H].
  - now apply app_nth1.
  - rewrite (nth_overflow ls _ H), app_nth2 by exact H.
    apply nth_repeat.
Qed.

Lemma diff_rounds_equal (old_lines new_lines : list str) (rounds : list nat)
      (diff : str) :
  (forall i, nth i old_lines [] = nth i new_lines []) ->
  fold_left (diff_round old_lines new_lines) rounds diff = diff.
Proof.
  intros E. induction rounds as [|i rounds IH]; cbn [fold_left]; [reflexivity|].
  unfold diff_round at 2. rewrite (E i), str_eqb_refl. exact IH.
Qed.

(** X4.  The diff of a text against the same text followed by any number
    of newline characters, zero included, is the bare header, in either
    direction: identical texts show no change, and lines added or removed
    at the end go unreported when they are empty. *)
Theorem diff_blind_to_trailing_newlines (code : str) (k : nat) :
  create_code_diff code (code ++ repeat 10%N k) = u "**Changes:**" ++ nl ++ nl /\
  create_code_diff (code ++ repeat 10%N k) code = u "**Changes:**" ++ nl ++ nl.
Proof.
  unfold create_code_diff. rewrite split_app_seps. split.
  - apply diff_rounds_equal. intros i. now rewrite nth_padded.
  - apply diff_rounds_equal. intros i. now rewrite nth_padded.
Qed.

Lemma startswith_cancel (a b c : str) :
  startswith (a ++ b) (a ++ c) = startswith b c.
Proof.
  induction a as [|x a IH]; simpl; [reflexivity|].
  now rewrite N.eqb_refl, IH.
Qed.

(** X5.  The estimate reads "Low" exactly for a text of fewer than fifty
    lines in which [Cypress.Commands.add] does not occur. *)
Theorem effort_low_iff (cypress_code : str) :
  startswith (u "**Migration Effort:** Low")
             (estimate_migration_effort cypress_code) = true <->
  length (Str.split 10%N cypress_code) < 50 /\
  contains (u "Cypress.Commands.add") cypress_code = false.
Proof.
  unfold estimate_migration_effort.
  change (u "**Migration Effort:** Low") with (u "**Migration Effort:** " ++ u "Low").
  assert (Z : Str.count (u "Cypress.Commands.add") cypress_code = 0 <->
              contains (u "Cypress.Commands.add") cypress_code = false)
    by (apply count_zero; discriminate).
  destruct (length (Str.split 10%N cypress_code) <? 50) eqn:E1; cbn [andb].
  - apply Nat.ltb_lt in E1.
    destruct (Str.count (u "Cypress.Commands.add") cypress_code =? 0) eqn:E2.
    + apply Nat.eqb_eq in E2. rewrite startswith_cancel. split; [|reflexivity].
      intros _. split; [exact E1|]. now apply Z.
    + apply Nat.eqb_neq in E2.
      destruct (_ && _); rewrite startswith_cancel;
        (split; [discriminate|]); intros [_ H]; apply Z in H; congruence.
  - apply Nat.ltb_ge in E1.
    destruct (_ && _); rewrite startswith_cancel;
      (split; [discriminate|]); intros [H _]; lia.
Qed.

Lemma combine_app_l {A B} (xs extra : list A) (ys : list B) :
  length xs = length ys -> combine (xs ++ extra) ys = combine xs ys.
Proof.
  revert ys; induction xs as [|x xs IH]; intros [|y ys]; simpl; try discriminate.
  - now destruct extra.
  - intros [= H]. now rewrite IH.
Qed.

Lemma combine_app_r {A B} (xs : list A) (ys extra : list B) :
  length xs = length ys -> combine xs (ys ++ extra) = combine xs ys.
Proof.
  revert ys; induction xs as [|x xs IH]; intros [|y ys]; simpl; try discriminate.
  - reflexivity.
  - intros [= H]. now rewrite IH.
Qed.

(** X6.  The comparison table pairs the examples off and stops at the
    shorter list: examples beyond the length of the other list leave no
    trace in the table. *)
Theorem comparison_table_truncates
        (cypress_examples playwright_examples extra : list str) :
  length cypress_examples = length playwright_examples ->
  create_comparison_table (cypress_examples ++ extra) playwright_examples =
    create_comparison_table cypress_examples playwright_examples /\
  create_comparison_table cypress_examples (playwright_examples ++ extra) =
    create_comparison_table cypress_examples playwright_examples.
Proof.
  intros H. unfold create_comparison_table.
  now rewrite combine_app_l, combine_app_r.
Qed.

Lemma comparison_table_truncates_witness :
  length [u "cy.get('a')"] = length [u "page.locator('a')"] /\
  create_comparison_table ([u "cy.get('a')"] ++ [u "cy.wait(1)"])
                          [u "page.locator('a')"] =
    create_comparison_table [u "cy.get('a')"] [u "page.locator('a')"].
Proof.
  split.
  - reflexivity.
  - apply (comparison_table_truncates [u "cy.get('a')"] [u "page.locator('a')"]
             [u "cy.wait(1)"]). reflexivity.
Defined.

Lemma summary_line_length (n : nat) (what : string) (summary : str) :
  length summary <= length (summary_line n what summary) /\
  (length (summary_line n what summary) = length summary -> n = 0).
Proof.
  unfold summary_line. destruct n as [|n]; cbn [Nat.ltb Nat.leb].
  - auto.
  - rewrite !length_app. unfold dot. cbn [length]. split; lia.
Qed.

Lemma summary_line_zero (what : string) (summary : str) :
  summary_line 0 what summary = summary.
Proof. reflexivity. Qed.

(** X7.  The summary is the bare heading exactly when the text holds none
    of [describe(], [it(], [test(], [expect(], [.should(], [async ],
    [page.] and [cy.]; [await ] is counted by [extract_test_patterns] but
    never shows in the summary. *)
Theorem summary_bare_iff (code : str) :
  generate_test_summary (extract_test_patterns code) =
    u "**Test Analysis:**" ++ nl ++ nl <->
  forallb (fun k => negb (contains k code))
          (List.map u ["describe("; "it("; "test("; "expect("; ".should(";
                       "async "; "page."; "cy."]%string) = true.
Proof.
  assert (Z : forall k : string, u k <> [] ->
            (Str.count (u k) code = 0 <-> negb (contains (u k) code) = true)).
  { intros k Hk. rewrite negb_true_iff. now apply count_zero. }
  cbn [List.map forallb]. rewrite !andb_true_iff.
  rewrite <- !Z by discriminate.
  unfold generate_test_summary, extract_test_patterns.
  cbn [describe_blocks test_cases assertions_found async_functions
       page_interactions].
  set (h := u "**Test Analysis:**" ++ nl ++ nl).
  set (n1 := Str.count (u "describe(") code).
  set (n2 := Str.count (u "it(") code + Str.count (u "test(") code).
  set (n3 := Str.count (u "expect(") code + Str.count (u ".should(") code).
  set (n4 := Str.count (u "async ") code).
  set (n5 := Str.count (u "page.") code + Str.count (u "cy.") code).
  assert (E : summary_line n5 " page interaction(s)"
                (summary_line n4 " async function(s)"
                   (summary_line n3 " assertion(s)"
                      (summary_line n2 " test case(s)"
                         (summary_line n1 " test suite(s)" h)))) = h <->
              n1 = 0 /\ n2 = 0 /\ n3 = 0 /\ n4 = 0 /\ n5 = 0).
  { split.
    - intros H. apply (f_equal (@length char)) in H.
      pose proof (summary_line_length n1 " test suite(s)" h) as [L1 Q1].
      set (s1 := summary_line n1 " test suite(s)" h) in *.
      pose proof (summary_line_length n2 " test case(s)" s1) as [L2 Q2].
      set (s2 := summary_line n2 " test case(s)" s1) in *.
      pose proof (summary_line_length n3 " assertion(s)" s2) as [L3 Q3].
      set (s3 := summary_line n3 " assertion(s)" s2) in *.
      pose proof (summary_line_length n4 " async function(s)" s3) as [L4 Q4].
      set (s4 := summary_line n4 " async function(s)" s3) in *.
      pose proof (summary_line_length n5 " page interaction(s)" s4) as [L5 Q5].
      repeat split; [apply Q1|apply Q2|apply Q3|apply Q4|apply Q5]; lia.
    - intros (-> & -> & -> & -> & ->). reflexivity. }
  rewrite E. unfold n1, n2, n3, n4, n5. split.
  - intros (H1 & H2 & H3 & H4 & H5). repeat split; lia.
  - intros (H1 & H2 & H3 & H4 & H5 & H6 & H7 & H8 & _).
    repeat split; lia.
Qed.

(** ** The boilerplate step *)

Lemma clash_startswith (p t rest : str) :
  clash p t = true -> startswith p (t ++ rest) = false.
Proof.
  revert t; induction p as [|a p IH]; intros [|b t]; simpl; try discriminate.
  intros H. destruct (N.eqb a b); simpl in *; auto.
Qed.

(** A text in front of which nothing of [p] can begin neither adds nor
    hides an occurrence of [p]. *)
Lemma contains_behind (p a rest : str) :
  begins_none p a = true -> contains p (a ++ rest) = contains p rest.
Proof.
  induction a as [|x a IH]; cbn [begins_none app]; intros H; [reflexivity|].
  apply andb_true_iff in H as [H1 H2].
  cbn [contains]. change (x :: a ++ rest) with ((x :: a) ++ rest).
  rewrite (clash_startswith _ _ rest H1). cbn [orb]. now apply IH.
Qed.

Lemma contains_app_r (p a b : str) :
  contains p b = true -> contains p (a ++ b) = true.
Proof.
  intros H. induction a as [|x a IH]; cbn [app contains]; [exact H|].
  rewrite IH. apply orb_true_r.
Qed.

Lemma startswith_app_l (p a b : str) :
  startswith p a = true -> startswith p (a ++ b) = true.
Proof.
  revert a; induction p as [|x p IH]; intros [|y a]; simpl; auto; try discriminate.
  intros H. apply andb_true_iff in H as [-> H]. simpl. auto.
Qed.

Lemma contains_app_l (p a b : str) :
  contains p a = true -> contains p (a ++ b) = true.
Proof.
  induction a as [|x a IH]; cbn [app contains]; intros H.
  - rewrite orb_false_r in H. destruct p; [|discriminate].
    destruct b; reflexivity.
  - apply orb_true_iff in H as [H|H].
    + change (x :: a ++ b) with ((x :: a) ++ b).
      now rewrite (startswith_app_l _ _ b H).
    + rewrite (IH H). apply orb_true_r.
Qed.

Lemma lacks_await_after_note (code : str) :
  lacks_await (u "// Add async/await syntax" ++ nl ++ code) = false.
Proof.
  unfold lacks_await. rewrite app_assoc.
  rewrite contains_app_l; [reflexivity|]. vm_compute. reflexivity.
Qed.

Lemma lacks_await_after_import (code : str) :
  lacks_await (u "import { test, expect } from '@playwright/test';" ++
               nl ++ nl ++ code) = lacks_await code.
Proof.
  unfold lacks_await. rewrite !app_assoc.
  rewrite !contains_behind by (vm_compute; reflexivity). reflexivity.
Qed.

(** X8.  The boilerplate step adds nothing to its own result: once the
    async note or the import line is in place a further application finds
    [await ] in the text and [import] at its start. *)
Theorem add_boilerplate_idempotent (conversion_type : str) (st : state) :
  add_boilerplate conversion_type (add_boilerplate conversion_type st) =
  add_boilerplate conversion_type st.
Proof.
  destruct st as [code ex].
  assert (Fixed : forall c e,
            lacks_await c = false ->
            (wants_import conversion_type c = true ->
             startswith (u "import") c = true) ->
            add_boilerplate conversion_type (c, e) = (c, e)).
  { intros c e Ha Hi. unfold add_boilerplate. cbn [fst snd]. rewrite Ha.
    cbn [fst snd]. destruct (wants_import conversion_type c); [|reflexivity].
    now rewrite Hi. }
  assert (P : lacks_await (fst (add_boilerplate conversion_type (code, ex))) = false /\
              (wants_import conversion_type
                 (fst (add_boilerplate conversion_type (code, ex))) = true ->
               startswith (u "import")
                 (fst (add_boilerplate conversion_type (code, ex))) = true)).
  { unfold add_boilerplate. cbn [fst snd].
    destruct (lacks_await code) eqn:Ea; cbn [fst snd].
    - destruct (wants_import conversion_type _) eqn:Ei.
      + destruct (negb (startswith (u "import") _)) eqn:Es; cbn [fst].
        * split.
          -- rewrite lacks_await_after_import. apply lacks_await_after_note.
          -- intros _. rewrite !app_assoc. apply startswith_app_l.
             vm_compute. reflexivity.
        * split; [apply lacks_await_after_note|].
          intros _. now apply negb_false_iff in Es.
      + cbn [fst]. split; [apply lacks_await_after_note|]. congruence.
    - destruct (wants_import conversion_type code) eqn:Ei.
      + destruct (negb (startswith (u "import") code)) eqn:Es; cbn [fst].
        * split.
          -- now rewrite lacks_await_after_import.
          -- intros _. rewrite !app_assoc. apply startswith_app_l.
             vm_compute. reflexivity.
        * split; [exact Ea|]. intros _. now apply negb_false_iff in Es.
      + cbn [fst]. split; [exact Ea|]. congruence. }
  destruct (add_boilerplate conversion_type (code, ex)) as [c e].
  cbn [fst] in P. destruct P as [Pa Pi]. now apply Fixed.
Qed.

(** X9.  The repair of [test.test.beforeEach] leaves a text as it is
    exactly when the artifact does not occur in it, and otherwise makes it
    strictly shorter. *)
Theorem fix_before_each_shortens (converted_code : str) :
  (fix_before_each converted_code = converted_code <->
   contains (u "test.test.beforeEach") converted_code = false) /\
  (contains (u "test.test.beforeEach") converted_code = true ->
   length (fix_before_each converted_code) < length converted_code).
Proof.
  split.
  - apply fix_before_each_fixed.
  - intros H. unfold fix_before_each. rewrite H.
    apply replace_shorter; [vm_compute; lia | exact H].
Qed.

(** ** The dropdown *)

(** X10.  The conversion types the dropdown offers are exactly the modes
    the converter recognizes, so the interface cannot ask for a mode under
    which no rule is applied. *)
Theorem dropdown_offers_recognized_modes (conversion_type : str) :
  In conversion_type conversion_type_choices <->
  recognized_mode conversion_type = true.
Proof.
  split.
  - intros H. cbn [conversion_type_choices List.map In] in H.
    repeat (destruct H as [<-|H]; [reflexivity|]). destruct H.
  - apply recognized_modes.
Qed.

(** ** Rules and the text they begin with *)

Lemma contains_of_startswith (p s : str) :
  startswith p s = true -> contains p s = true.
Proof. intros H. destruct s; cbn [contains]; now rewrite H. Qed.

Lemma startswith_split (a s : str) :
  startswith a s = true -> exists rest, s = a ++ rest.
Proof.
  revert s; induction a as [|x a IH]; intros s; simpl.
  - intros _. now exists s.
  - destruct s as [|y s]; [discriminate|]. intros H.
    apply andb_true_iff in H as [E H]. apply N.eqb_eq in E as ->.
    destruct (IH s H) as [rest ->]. now exists rest.
Qed.

Lemma contains_split (k s : str) :
  contains k s = true -> exists a b, s = a ++ k ++ b.
Proof.
  induction s as [|y s IH]; cbn [contains]; intros H.
  - destruct k; [now exists [], []|discriminate].
  - apply orb_true_iff in H as [H|H].
    + apply startswith_split in H as [rest E]. now exists [], rest.
    + destruct (IH H) as (a & b & ->). now exists (y :: a), b.
Qed.

(** A text that occurs in an occurring text occurs. *)
Lemma contains_inside (k l s : str) :
  contains k l = true -> contains l s = true -> contains k s = true.
Proof.
  intros Hk Hl.
  apply contains_split in Hk as (a & b & ->).
  apply contains_split in Hl as (x & y & ->).
  rewrite <- !app_assoc. do 2 apply contains_app_r.
  apply contains_of_startswith, startswith_refl.
Qed.

Lemma m_atoms_lit_atoms {R} (l : list atom) (s acc : str)
      (k : str -> str -> option R) (r : R) :
  m_atoms l s acc k = Some r -> startswith (lit_atoms l) s = true.
Proof.
  revert s acc; induction l as [|a l IH]; intros s acc; [reflexivity|].
  destruct a as [c|f|f|f]; try reflexivity.
  cbn [m_atoms lit_atoms startswith].
  destruct s as [|x s]; [discriminate|].
  destruct (N.eqb x c) eqn:E; [|discriminate].
  apply N.eqb_eq in E as ->. rewrite N.eqb_refl. apply IH.
Qed.

Lemma m_items_lit_prefix {R} (p : pattern) (s : str) (caps : list str)
      (k : str -> list str -> option R) (r : R) :
  m_items p s caps k = Some r -> startswith (lit_prefix p) s = true.
Proof.
  revert s; induction p as [|i p IH]; intros s; [reflexivity|].
  destruct i as [[c|f|f|f]|body]; try reflexivity.
  - cbn [m_items m_atoms lit_prefix startswith].
    destruct s as [|x s]; [discriminate|].
    destruct (N.eqb x c) eqn:E; [|discriminate].
    apply N.eqb_eq in E as ->. rewrite N.eqb_refl. apply IH.
  - cbn [m_items lit_prefix]. apply m_atoms_lit_atoms.
Qed.

(** A pattern matches nowhere in a text that lacks its literal
    beginning, or any part of that beginning. *)
Lemma search_absent (k : str) (p : pattern) (code : str) :
  contains k code = false ->
  contains k (lit_prefix p) = true ->
  search p code = false.
Proof.
  intros Hk Hp.
  assert (Hl : contains (lit_prefix p) code = false).
  { destruct (contains (lit_prefix p) code) eqn:E; [|reflexivity].
    rewrite (contains_inside _ _ _ Hp E) in Hk. discriminate. }
  clear Hk Hp. induction code as [|c code IH]; cbn [search contains] in *.
  - destruct (match_at p []) as [r|] eqn:E; [|reflexivity].
    apply m_items_lit_prefix in E. rewrite E in Hl. discriminate.
  - apply orb_false_iff in Hl as [H1 H2].
    destruct (match_at p (c :: code)) as [r|] eqn:E; [|exact (IH H2)].
    apply m_items_lit_prefix in E. congruence.
Qed.

(** X11.  Text that mentions none of [cy.], [.its('response.statusCode')],
    [.should('eq',], [.as(] and [.each(($] passes through the advanced
    pass untouched and unreported: every one of its rules begins with a
    literal text that holds one of the five. *)
Theorem advanced_pass_skips_foreign_text (db : unicode_db) (code : str) :
  forallb (fun k => negb (contains k code))
          (List.map u ["cy."; ".its('response.statusCode')"; ".should('eq',";
                       ".as("; ".each(($"]%string) = true ->
  _convert_advanced_patterns db code = Ok (code, []).
Proof.
  cbn [List.map forallb]. rewrite !andb_true_iff, !negb_true_iff.
  intros (H1 & H2 & H3 & H4 & H5 & _).
  assert (S : forall p,
            (contains (u "cy.") (lit_prefix p) ||
             contains (u ".its('response.statusCode')") (lit_prefix p) ||
             contains (u ".should('eq',") (lit_prefix p) ||
             contains (u ".as(") (lit_prefix p) ||
             contains (u ".each(($") (lit_prefix p)) = true ->
            search p code = false).
  { intros p Hp. rewrite !orb_true_iff in Hp.
    destruct Hp as [[[[Hp|Hp]|Hp]|Hp]|Hp];
      match type of Hp with
      | contains ?k _ = true =>
          apply (search_absent k); [assumption | exact Hp]
      end. }
  apply advanced_idle, forallb_forall. intros b Hb.
  cbn [advanced_blocks In] in Hb.
  repeat (destruct Hb as [<-|Hb];
          [cbn [block_idle block_pattern];
           first [ rewrite S by (vm_compute; reflexivity); reflexivity
                 | rewrite (proj2 (ReFacts.findall_nil_search _ code))
                     by (apply S; vm_compute; reflexivity);
                   reflexivity ]|]).
  destruct Hb.
Qed.

Lemma advanced_pass_skips_foreign_text_witness :
  forallb (fun k => negb (contains k (u "await page.goto('/login');")))
          (List.map u ["cy."; ".its('response.statusCode')"; ".should('eq',";
                       ".as("; ".each(($"]%string) = true /\
  _convert_advanced_patterns ascii_db (u "await page.goto('/login');") =
    Ok (u "await page.goto('/login');", []).
Proof.
  split.
  - vm_compute. reflexivity.
  - apply (advanced_pass_skips_foreign_text ascii_db). vm_compute. reflexivity.
Defined.

(** The explanation line a single-group rule writes for one match. *)
Lemma rule1_absent_loop (old new : str -> str)
      (line : str -> str -> str -> str) (code : str)
      (xs : list found) (ex : list str) :
  (forall x, In x xs -> exists m, x = FStr m /\ contains (old m) code = false) ->
  for_each xs
    (fun x st => m <- as_str x ;;
                 Ok (rewrite (old m) (new m) (line m (old m) (new m)) st))
    (code, ex) =
  Ok (code,
      ex ++ List.map (fun x => match x with
                               | FStr m => line m (old m) (new m)
                               | FTuple _ => []
                               end) xs).
Proof.
  revert ex; induction xs as [|x xs IH]; intros ex H; cbn [for_each List.map].
  - now rewrite app_nil_r.
  - destruct (H x (or_introl eq_refl)) as (m & -> & Hm).
    cbn [as_str bind]. unfold rewrite. cbn [fst snd].
    rewrite (replace_absent _ _ _ Hm), IH.
    + now rewrite <- app_assoc.
    + intros y Hy. apply H. now right.
Qed.

(** X12.  A single-group rule of the advanced pass writes one explanation
    line for every match of its pattern whether or not the text it then
    looks for, rebuilt from the match, occurs: when it does not (a call
    written with double quotes is rebuilt with single ones) the code
    stays as it was and the change is reported all the same. *)
Theorem rule_reports_without_replacing (p : pattern) (old new : str -> str)
        (line : str -> str -> str -> str) (code : str) (ex : list str) :
  ngroups p <= 1 ->
  (forall m, In (FStr m) (findall p code) -> contains (old m) code = false) ->
  rule1 p old new line (code, ex) =
  Ok (code,
      ex ++ List.map (fun x => match x with
                               | FStr m => line m (old m) (new m)
                               | FTuple _ => []
                               end) (findall p code)).
Proof.
  intros Hn H. unfold rule1. cbn [fst]. apply rule1_absent_loop.
  intros x Hx. destruct (ReFacts.findall_str _ _ _ Hn Hx) as [m ->].
  exists m. split; [reflexivity|]. now apply H.
Qed.

Lemma rule_reports_without_replacing_witness :
  ngroups contains_basic_pattern <= 1 /\
  rule1 contains_basic_pattern
    (fun m => u "cy.contains('" ++ m ++ u "')")
    (fun m => u "page.getByText('" ++ m ++ u "')") plain
    (u "cy.contains(" ++ [34%N] ++ u "Save" ++ [34%N] ++ u ")", []) =
  Ok (u "cy.contains(" ++ [34%N] ++ u "Save" ++ [34%N] ++ u ")",
      [] ++ List.map
        (fun x => match x with
                  | FStr m => plain m (u "cy.contains('" ++ m ++ u "')")
                                    (u "page.getByText('" ++ m ++ u "')")
                  | FTuple _ => []
                  end)
        (findall contains_basic_pattern
           (u "cy.contains(" ++ [34%N] ++ u "Save" ++ [34%N] ++ u ")"))).
Proof.
  split.
  - vm_compute. lia.
  - apply (rule_reports_without_replacing contains_basic_pattern).
    + vm_compute. lia.
    + intros m H. vm_compute in H. destruct H as [[= <-]|[]].
      vm_compute. reflexivity.
Defined.

(** ** Fixed waits *)

Section FixedWait.
Variable db : unicode_db.
Variable n : str.
Hypothesis n_nonempty : n <> [].
Hypothesis n_digits : forallb ascii_digit n = true.

Lemma startswith_gap (k a post : str) :
  forallb (fun c => negb (ascii_digit c)) k = true ->
  startswith k (a ++ n ++ post) = startswith k a.
Proof.
  revert a; induction k as [|x k IH]; intros a Hk; [reflexivity|].
  cbn [forallb] in Hk. apply andb_true_iff in Hk as [Hx Hk].
  destruct a as [|y a]; cbn [app startswith].
  - destruct n as [|d n'] eqn:E; [congruence|]. cbn [app].
    cbn [forallb] in n_digits. apply andb_true_iff in n_digits as [Hd _].
    destruct (N.eqb x d) eqn:Exd; [|reflexivity].
    apply N.eqb_eq in Exd. subst x. rewrite Hd in Hx. discriminate.
  - now rewrite IH.
Qed.

Lemma contains_number (k post : str) (m : str) :
  k <> [] ->
  forallb (fun c => negb (ascii_digit c)) k = true ->
  forallb ascii_digit m = true ->
  contains k (m ++ post) = contains k post.
Proof.
  intros Hne Hk. induction m as [|d m IH]; intros Hm; [reflexivity|].
  cbn [forallb] in Hm. apply andb_true_iff in Hm as [Hd Hm].
  cbn [app contains]. rewrite (IH Hm).
  destruct k as [|x k]; [congruence|]. cbn [startswith].
  cbn [forallb] in Hk. apply andb_true_iff in Hk as [Hx _].
  destruct (N.eqb x d) eqn:Exd; [|reflexivity].
  apply N.eqb_eq in Exd. subst x. rewrite Hd in Hx. discriminate.
Qed.

(** A text free of digits occurs in [pre], the number, [post] only where
    it occurs in [pre] or in [post]. *)
Lemma gap_absent (k pre post : str) :
  gap_free k pre post = true -> contains k (pre ++ n ++ post) = false.
Proof.
  unfold gap_free. intros H.
  apply andb_true_iff in H as [H Hpost].
  apply andb_true_iff in H as [H Hpre].
  apply andb_true_iff in H as [Hne Hk].
  apply negb_true_iff in Hpre, Hpost.
  assert (Hk0 : k <> []) by (destruct k; [discriminate|congruence]).
  clear Hne. induction pre as [|y pre IH]; cbn [app].
  - now rewrite contains_number.
  - cbn [contains] in *. apply orb_false_iff in Hpre as [H1 H2].
    change (y :: pre ++ n ++ post) with ((y :: pre) ++ n ++ post).
    rewrite startswith_gap, H1 by exact Hk. cbn [orb]. now apply IH.
Qed.

End FixedWait.

Lemma m_atoms_lit_app {R} (l : str) (rest : list atom) (s acc : str)
      (k : str -> str -> option R) :
  m_atoms (List.map ALit l ++ rest) (l ++ s) acc k =
  m_atoms rest s (rev l ++ acc) k.
Proof.
  revert acc; induction l as [|c l IH]; intros acc; [reflexivity|].
  cbn [List.map app m_atoms rev]. rewrite N.eqb_refl, IH, <- app_assoc.
  reflexivity.
Qed.

Lemma m_items_lits_app {R} (l : str) (p : pattern) (s : str)
      (caps : list str) (k : str -> list str -> option R) :
  m_items (List.map At (List.map ALit l) ++ p) (l ++ s) caps k =
  m_items p s caps k.
Proof.
  induction l as [|c l IH]; [reflexivity|].
  cbn [List.map app m_items m_atoms]. now rewrite N.eqb_refl.
Qed.

(** A greedy star runs through the characters of its class and succeeds
    behind them if the rest of the pattern does there. *)
Lemma star_run {R} (f : char -> bool) (k : str -> str -> option R)
      (run t acc : str) (r : R) :
  forallb f run = true ->
  star f k t (rev run ++ acc) = Some r ->
  star f k (run ++ t) acc = Some r.
Proof.
  revert acc; induction run as [|x run IH]; intros acc Hf H; [exact H|].
  cbn [forallb] in Hf. apply andb_true_iff in Hf as [Hx Hf].
  cbn [app star]. rewrite Hx.
  rewrite (IH (x :: acc) Hf); [reflexivity|].
  cbn [rev] in H. now rewrite <- app_assoc in H.
Qed.

Lemma scan_skip_all (p : pattern) (s : str) (skip : nat) :
  match_at p [] = None -> length s <= skip -> scan p skip s = [].
Proof.
  intros Hp. revert skip; induction s as [|c s IH]; intros skip Hs; cbn [scan].
  - rewrite Hp. now destruct skip.
  - destruct skip as [|k]; [simpl in Hs; lia|]. apply IH. simpl in Hs. lia.
Qed.

(** A pattern that matches the whole of a text is found once. *)
Lemma findall_whole (p : pattern) (s : str) (caps : list str) :
  s <> [] ->
  match_at p s = Some (caps, []) ->
  match_at p [] = None ->
  findall p s = [found_of (ngroups p) s caps].
Proof.
  intros Hs Hm Hp. unfold findall. destruct s as [|c s]; [congruence|].
  cbn [scan]. rewrite Hm. cbn [length Nat.sub List.map fst snd].
  rewrite Nat.sub_0_r, scan_skip_all by (auto; lia).
  change (firstn (S (length s)) (c :: s)) with (c :: firstn (length s) s).
  now rewrite firstn_all.
Qed.

Lemma replace_from_skip_all (old new s : str) (skip : nat) :
  length s <= skip -> replace_from old new skip s = [].
Proof.
  revert skip; induction s as [|c s IH]; intros skip Hs; [reflexivity|].
  destruct skip as [|k]; [simpl in Hs; lia|].
  cbn [replace_from]. apply IH. simpl in Hs. lia.
Qed.

(** Replacing a text in itself gives the replacement. *)
Lemma replace_self (old new : str) :
  old <> [] -> replace old new old = new.
Proof.
  intros H. destruct old as [|o old']; [congruence|].
  unfold replace. cbn [replace_from].
  rewrite (startswith_refl (o :: old') []) || idtac.
  assert (E : startswith (o :: old') (o :: old') = true).
  { pose proof (startswith_refl (o :: old') []) as E.
    now rewrite app_nil_r in E. }
  rewrite E, replace_from_skip_all by (simpl; lia).
  apply app_nil_r.
Qed.

Lemma for_each_app {A S} (xs ys : list A) (body : A -> S -> result S) (s : S) :
  for_each (xs ++ ys) body s =
  (s' <- for_each xs body s ;; for_each ys body s').
Proof.
  revert s; induction xs as [|x xs IH]; intros s; cbn [app for_each bind].
  - reflexivity.
  - destruct (body x s); cbn [bind]; auto.
Qed.

Section FixedWaitRun.
Variable db : unicode_db.
Variable n : str.
Hypothesis n_nonempty : n <> [].
Hypothesis n_digits : forallb ascii_digit n = true.

Lemma digit_of_ascii_digit (c : char) : ascii_digit c = true -> digit db c = true.
Proof.
  unfold ascii_digit, digit, between, is_ascii. intros H. rewrite H.
  apply andb_true_iff in H as [_ H]. apply N.leb_le in H.
  assert (E : (c <? 128)%N = true) by (apply N.ltb_lt; lia).
  now rewrite E.
Qed.

Lemma not_rparen_of_ascii_digit (c : char) :
  ascii_digit c = true -> not_rparen c = true.
Proof.
  unfold ascii_digit, not_rparen, between. intros H.
  apply andb_true_iff in H as [H _]. apply N.leb_le in H.
  apply negb_true_iff, N.eqb_neq. lia.
Qed.

Lemma forallb_impl {A} (f g : A -> bool) (l : list A) :
  (forall x, f x = true -> g x = true) ->
  forallb f l = true -> forallb g l = true.
Proof.
  intros H. induction l as [|x l IH]; cbn [forallb]; [reflexivity|].
  intros E. apply andb_true_iff in E as [E1 E2]. now rewrite (H x E1), IH.
Qed.

Lemma match_wait_number :
  match_at (wait_number_pattern db) (u "cy.wait(" ++ n ++ u ")") = Some ([n], []).
Proof.
  unfold match_at, wait_number_pattern, lits, lit.
  rewrite m_items_lits_app. cbn [app m_items].
  destruct n as [|d n'] eqn:E; [congruence|].
  cbn [forallb] in n_digits. apply andb_true_iff in n_digits as [Hd Hn'].
  cbn [app m_atoms]. rewrite (digit_of_ascii_digit d Hd).
  apply star_run; [exact (forallb_impl _ _ _ digit_of_ascii_digit Hn')|].
  change (u ")") with [41%N]. cbn [star].
  change (digit db 41%N) with false.
  cbn [List.map m_items m_atoms]. rewrite N.eqb_refl.
  cbn [rev]. rewrite rev_app_distr, rev_involutive. reflexivity.
Qed.

Lemma match_unidentified :
  match_at unidentified_cy_pattern (u "cy.wait(" ++ n ++ u ")") =
  Some ([u "cy.wait(" ++ n ++ u ")"], []).
Proof.
  unfold match_at, unidentified_cy_pattern, lit. cbn [m_items].
  change (u "cy.wait(" ++ n ++ u ")")
    with (u "cy." ++ [119%N] ++ [97; 105; 116]%N ++ u "(" ++ n ++ u ")") at 1.
  rewrite m_atoms_lit_app. cbn [app m_atoms].
  change (alpha 119%N) with true. cbv iota.
  change (97%N :: 105%N :: 116%N :: u "(" ++ n ++ u ")")
    with ([97; 105; 116]%N ++ u "(" ++ n ++ u ")").
  apply star_run; [reflexivity|].
  change (u "(") with [40%N]. cbn [app star].
  change (alnum 40%N) with false. cbv iota.
  change (40%N :: n ++ u ")") with ([40%N] ++ n ++ u ")").
  rewrite (m_atoms_lit_app [40%N]). cbn [app m_atoms].
  apply star_run;
    [exact (forallb_impl _ _ _ not_rparen_of_ascii_digit n_digits)|].
  change (u ")") with [41%N]. cbn [star].
  change (not_rparen 41%N) with false. cbv iota.
  cbn [List.map m_atoms m_items]. rewrite N.eqb_refl.
  cbn [rev]. rewrite !rev_app_distr, rev_involutive.
  cbn [rev app]. rewrite <- !app_assoc. reflexivity.
Qed.

Lemma findall_wait_number :
  findall (wait_number_pattern db) (u "cy.wait(" ++ n ++ u ")") = [FStr n].
Proof.
  rewrite (findall_whole _ _ [n]).
  - reflexivity.
  - discriminate.
  - exact match_wait_number.
  - reflexivity.
Qed.

Lemma findall_unidentified :
  findall unidentified_cy_pattern (u "cy.wait(" ++ n ++ u ")") =
  [FStr (u "cy.wait(" ++ n ++ u ")")].
Proof.
  rewrite (findall_whole _ _ [u "cy.wait(" ++ n ++ u ")"]).
  - reflexivity.
  - discriminate.
  - exact match_unidentified.
  - reflexivity.
Qed.

(** A block is idle on the call when the literal beginning of its pattern
    is. *)
Lemma idle_on_gap (b : block) (pre post : str) :
  match b with FlagUnidentified _ => false | _ => true end = true ->
  gap_free (lit_prefix (block_pattern b)) pre post = true ->
  block_idle b (pre ++ n ++ post) = true.
Proof.
  intros Hb Hg.
  assert (S : search (block_pattern b) (pre ++ n ++ post) = false).
  { apply (search_absent (lit_prefix (block_pattern b))).
    - now apply gap_absent.
    - unfold gap_free in Hg.
      destruct (lit_prefix (block_pattern b)) as [|c l] eqn:E;
        [discriminate|].
      apply contains_of_startswith.
      pose proof (startswith_refl (c :: l) []) as R.
      now rewrite app_nil_r in R. }
  destruct b; try discriminate; cbn [block_idle block_pattern] in *;
    now rewrite S.
Qed.

Lemma known_fixed_wait :
  to_flag (u "cy.wait(" ++ n ++ u ")") (u "cy.wait(" ++ n ++ u ")") = false.
Proof.
  unfold to_flag. apply andb_false_iff. left. apply negb_false_iff.
  apply existsb_exists. exists (u "cy.wait("). split.
  - unfold known_patterns. cbn [List.map In]. tauto.
  - apply startswith_refl.
Qed.

(** The advanced pass on a fixed wait. *)
Lemma advanced_fixed_wait :
  _convert_advanced_patterns db (u "cy.wait(" ++ n ++ u ")") =
  Ok (u "await page.waitForTimeout(" ++ n ++ u ")",
      [rule_line (u "cy.wait(" ++ n ++ u ")")
                 (u "await page.waitForTimeout(" ++ n ++ u ")") ++
       u " (consider using auto-wait instead)"]).
Proof.
  unfold _convert_advanced_patterns.
  pose (front := firstn 12 (advanced_blocks db)).
  pose (rest := skipn 13 (advanced_blocks db)).
  change (advanced_blocks db)
    with (front ++ [nth 12 (advanced_blocks db) (NoteIf [] [])] ++ rest).
  rewrite for_each_app, for_each_idle.
  2:{ intros b Hb. apply run_block_idle.
      cbn [front advanced_blocks firstn In] in Hb.
      repeat (destruct Hb as [<-|Hb];
              [first [ apply idle_on_gap; vm_compute; reflexivity
                     | cbn [block_idle]; rewrite findall_unidentified;
                       cbn [forallb]; now rewrite known_fixed_wait ]|]).
      destruct Hb. }
  cbn [bind]. rewrite for_each_app.
  cbn [nth advanced_blocks for_each run_block].
  unfold rule1 at 1. cbn [fst]. rewrite findall_wait_number.
  cbn [for_each as_str bind]. unfold rewrite at 1. cbn [fst snd app].
  rewrite replace_self by (destruct n; discriminate).
  apply for_each_idle.
  intros b Hb. apply run_block_idle.
  cbn [rest advanced_blocks skipn In] in Hb.
  repeat (destruct Hb as [<-|Hb];
          [apply idle_on_gap; vm_compute; reflexivity|]).
  destruct Hb.
Qed.

Lemma keys_absent_gap (items : dict str) (pre post : str) :
  forallb (fun kv => gap_free (fst kv) pre post) items = true ->
  keys_absent items (pre ++ n ++ post) = true.
Proof.
  intros H. apply forallb_forall. intros kv Hkv.
  apply negb_true_iff, (gap_absent n n_nonempty n_digits).
  exact (proj1 (forallb_forall _ _) H kv Hkv).
Qed.

Lemma fixed_wait_by_table (mode : str) (items : dict str) :
  recognized_mode mode = true ->
  tables_of mode = [items] ->
  str_eqb mode (u "full_conversion") = false ->
  forallb (fun kv => gap_free (fst kv) (u "cy.wait(") (u ")")) items = true ->
  convert_cypress_code db (u "cy.wait(" ++ n ++ u ")") mode =
  Ok (u "await page.waitForTimeout(" ++ n ++ u ")",
      u "**Conversion Changes:**" ++ nl ++
      rule_line (u "cy.wait(" ++ n ++ u ")")
                (u "await page.waitForTimeout(" ++ n ++ u ")") ++
      u " (consider using auto-wait instead)").
Proof.
  intros Hr Ht Hf Hk.
  unfold convert_cypress_code. rewrite run_rules_eq, Hr, Ht.
  cbn [for_each bind].
  rewrite apply_table_idle by now apply keys_absent_gap.
  cbn [bind]. unfold then_advanced. cbn [fst snd].
  rewrite advanced_fixed_wait. cbn [bind fst snd app].
  unfold add_boilerplate, wants_import. rewrite Hf. cbn [fst snd andb].
  assert (Ha : lacks_await (u "await page.waitForTimeout(" ++ n ++ u ")") = false).
  { unfold lacks_await. rewrite contains_app_l by (vm_compute; reflexivity).
    reflexivity. }
  rewrite Ha. cbn [fst snd render join].
  rewrite (proj2 (fix_before_each_fixed _)).
  - reflexivity.
  - now apply (gap_absent n n_nonempty n_digits).
Qed.

(** X13.  In every mode whose table has no entry that occurs in
    [cy.wait(] (all but [full_conversion] and [basic_syntax], where [it(]
    does), a fixed wait [cy.wait(N)], [N] any run of ASCII digits, comes
    out as [await page.waitForTimeout(N)], reported with the advice to
    rely on auto-wait. *)
Theorem fixed_wait_converted (mode : str) :
  In mode (List.map u ["assertions"; "commands"; "waiting"; "advanced";
                       "url_navigation"; "architectural";
                       "fixtures_commands"]%string) ->
  convert_cypress_code db (u "cy.wait(" ++ n ++ u ")") mode =
  Ok (u "await page.waitForTimeout(" ++ n ++ u ")",
      u "**Conversion Changes:**" ++ nl ++
      rule_line (u "cy.wait(" ++ n ++ u ")")
                (u "await page.waitForTimeout(" ++ n ++ u ")") ++
      u " (consider using auto-wait instead)").
Proof.
  intros Hm. cbn [List.map In] in Hm.
  repeat (destruct Hm as [<-|Hm];
          [eapply fixed_wait_by_table; vm_compute; reflexivity|]).
  destruct Hm.
Qed.

End FixedWaitRun.

Lemma fixed_wait_converted_witness :
  u "5000" <> [] /\
  forallb ascii_digit (u "5000") = true /\
  In (u "waiting")
     (List.map u ["assertions"; "commands"; "waiting"; "advanced";
                  "url_navigation"; "architectural";
                  "fixtures_commands"]%string) /\
  convert_cypress_code ascii_db (u "cy.wait(" ++ u "5000" ++ u ")") (u "waiting") =
  Ok (u "await page.waitForTimeout(" ++ u "5000" ++ u ")",
      u "**Conversion Changes:**" ++ nl ++
      rule_line (u "cy.wait(" ++ u "5000" ++ u ")")
                (u "await page.waitForTimeout(" ++ u "5000" ++ u ")") ++
      u " (consider using auto-wait instead)").
Proof.
  assert (N : u "5000" <> []) by (vm_compute; discriminate).
  assert (D : forallb ascii_digit (u "5000") = true) by reflexivity.
  assert (M : In (u "waiting")
     (List.map u ["assertions"; "commands"; "waiting"; "advanced";
                  "url_navigation"; "architectural";
                  "fixtures_commands"]%string)) by (cbn; tauto).
  split; [exact N|]. split; [exact D|]. split; [exact M|].
  exact (fixed_wait_converted ascii_db (u "5000") N D (u "waiting") M).
Defined.

(** ** Fixed waits under the [it(] entry *)

Section MangledWait.
Variable db : unicode_db.
Variable n : str.
Hypothesis n_nonempty : n <> [].
Hypothesis n_digits : forallb ascii_digit n = true.

Lemma match_unidentified_watest :
  match_at unidentified_cy_pattern (u "cy.watest(" ++ n ++ u ")") =
  Some ([u "cy.watest(" ++ n ++ u ")"], []).
Proof.
  unfold match_at, unidentified_cy_pattern, lit. cbn [m_items].
  change (u "cy.watest(" ++ n ++ u ")")
    with (u "cy." ++ [119%N] ++ [97; 116; 101; 115; 116]%N ++ u "(" ++ n ++ u ")") at 1.
  rewrite m_atoms_lit_app. cbn [app m_atoms].
  change (alpha 119%N) with true. cbv iota.
  change (97%N :: 116%N :: 101%N :: 115%N :: 116%N :: u "(" ++ n ++ u ")")
    with ([97; 116; 101; 115; 116]%N ++ u "(" ++ n ++ u ")").
  apply star_run; [reflexivity|].
  change (u "(") with [40%N]. cbn [app star].
  change (alnum 40%N) with false. cbv iota.
  change (40%N :: n ++ u ")") with ([40%N] ++ n ++ u ")").
  rewrite (m_atoms_lit_app [40%N]). cbn [app m_atoms].
  apply star_run;
    [exact (forallb_impl _ _ _ not_rparen_of_ascii_digit n_digits)|].
  change (u ")") with [41%N]. cbn [star].
  change (not_rparen 41%N) with false. cbv iota.
  cbn [List.map m_atoms m_items]. rewrite N.eqb_refl.
  cbn [rev]. rewrite !rev_app_distr, rev_involutive.
  cbn [rev app]. rewrite <- !app_assoc. reflexivity.
Qed.

Lemma findall_unidentified_watest :
  findall unidentified_cy_pattern (u "cy.watest(" ++ n ++ u ")") =
  [FStr (u "cy.watest(" ++ n ++ u ")")].
Proof.
  rewrite (findall_whole _ _ [u "cy.watest(" ++ n ++ u ")"]).
  - reflexivity.
  - discriminate.
  - exact match_unidentified_watest.
  - reflexivity.
Qed.

(** The entry [it(] rewrites the end of [cy.wait(]. *)
Lemma it_entry_mangles_wait :
  replace (u "it(") (u "test(") (u "cy.wait(" ++ n ++ u ")") =
  u "cy.watest(" ++ n ++ u ")".
Proof.
  assert (T : replace_from (u "it(") (u "test(") 0 (n ++ u ")") = n ++ u ")").
  { apply replace_from_absent.
    apply (gap_absent n n_nonempty n_digits (u "it(") [] (u ")")).
    reflexivity. }
  change (replace (u "it(") (u "test(") (u "cy.wait(" ++ n ++ u ")"))
    with (u "cy.wa" ++ u "test(" ++
          replace_from (u "it(") (u "test(") 0 (n ++ u ")")).
  rewrite T. reflexivity.
Qed.

Lemma basic_table_on_wait :
  apply_table basic_syntax (@pair str (list str) (u "cy.wait(" ++ n ++ u ")") []) =
  Ok (u "cy.watest(" ++ n ++ u ")", [rule_line (u "it(") (u "test(")]).
Proof.
  pose (front := firstn 8 basic_syntax).
  pose (back := skipn 9 basic_syntax).
  unfold apply_table.
  change basic_syntax with (front ++ [(u "it(", u "test(")] ++ back).
  rewrite for_each_app.
  change (for_each front apply_pair (u "cy.wait(" ++ n ++ u ")", []))
    with (apply_table front (u "cy.wait(" ++ n ++ u ")", [])).
  rewrite apply_table_idle
    by (apply (keys_absent_gap n n_nonempty n_digits); reflexivity).
  cbn [bind]. rewrite for_each_app. cbn [for_each].
  unfold apply_pair at 1. cbn [fst snd].
  rewrite contains_app_l by reflexivity. cbn [bind].
  unfold rewrite. cbn [fst snd app]. rewrite it_entry_mangles_wait.
  change (for_each back apply_pair ?st) with (apply_table back st).
  apply apply_table_idle.
  apply (keys_absent_gap n n_nonempty n_digits). reflexivity.
Qed.

Lemma flag_watest :
  to_flag (u "cy.watest(" ++ n ++ u ")") (u "cy.watest(" ++ n ++ u ")") = true.
Proof.
  unfold to_flag. apply andb_true_iff. split.
  - apply negb_true_iff. unfold known_patterns.
    cbn [List.map existsb].
    rewrite !(startswith_gap n n_nonempty n_digits) by reflexivity.
    reflexivity.
  - apply contains_of_startswith.
    pose proof (startswith_refl (u "cy.watest(" ++ n ++ u ")") []) as R.
    now rewrite app_nil_r in R.
Qed.

(** The advanced pass on the mangled call. *)
Lemma advanced_watest :
  _convert_advanced_patterns db (u "cy.watest(" ++ n ++ u ")") =
  Ok (u "// TODO: Manual review needed - possible custom command: cy.watest(" ++
      n ++ u ")",
      [rule_line (u "cy.watest(" ++ n ++ u ")")
         (u "// TODO: Manual review needed - possible custom command: cy.watest(" ++
          n ++ u ")")]).
Proof.
  unfold _convert_advanced_patterns.
  pose (front := firstn 2 (advanced_blocks db)).
  pose (rest := skipn 3 (advanced_blocks db)).
  change (advanced_blocks db)
    with (front ++ [FlagUnidentified unidentified_cy_pattern] ++ rest).
  rewrite for_each_app, for_each_idle.
  2:{ intros b Hb. apply run_block_idle.
      cbn [front advanced_blocks firstn In] in Hb.
      repeat (destruct Hb as [<-|Hb];
              [apply (idle_on_gap n n_nonempty n_digits); vm_compute; reflexivity|]).
      destruct Hb. }
  cbn [bind]. rewrite for_each_app.
  cbn [for_each run_block].
  unfold flag_unidentified at 1. cbn [fst]. rewrite findall_unidentified_watest.
  cbn [for_each as_str bind fst]. rewrite flag_watest. cbn [bind].
  unfold rewrite at 1. cbn [fst snd app].
  rewrite replace_self by (destruct n; discriminate).
  change (u "// TODO: Manual review needed - possible custom command: " ++
          u "cy.watest(" ++ n ++ u ")")
    with (u "// TODO: Manual review needed - possible custom command: cy.watest(" ++
          n ++ u ")").
  apply for_each_idle.
  intros b Hb. apply run_block_idle.
  cbn [rest advanced_blocks skipn In] in Hb.
  repeat (destruct Hb as [<-|Hb];
          [apply (idle_on_gap n n_nonempty n_digits); vm_compute; reflexivity|]).
  destruct Hb.
Qed.

Lemma flagged_keeps_no_await :
  lacks_await
    (u "// TODO: Manual review needed - possible custom command: cy.watest(" ++
     n ++ u ")") = false.
Proof.
  unfold lacks_await.
  rewrite !(gap_absent n n_nonempty n_digits) by reflexivity. reflexivity.
Qed.

(** X14.  Under [basic_syntax] and [full_conversion] no fixed wait
    survives: the table entry [it(] matches the end of [cy.wait(], so for
    every run [N] of ASCII digits [cy.wait(N)] becomes [cy.watest(N)] and
    is flagged as an unknown command; no [waitForTimeout] is written. *)
Theorem fixed_wait_mangled :
  convert_cypress_code db (u "cy.wait(" ++ n ++ u ")") (u "basic_syntax") =
    Ok (u "// TODO: Manual review needed - possible custom command: cy.watest(" ++
        n ++ u ")",
        u "**Conversion Changes:**" ++ nl ++
        join nl [
          rule_line (u "it(") (u "test(");
          rule_line (u "cy.watest(" ++ n ++ u ")")
            (u "// TODO: Manual review needed - possible custom command: cy.watest(" ++
             n ++ u ")")
        ]) /\
  convert_cypress_code db (u "cy.wait(" ++ n ++ u ")") full_conversion =
    Ok (u "import { test, expect } from '@playwright/test';" ++ nl ++ nl ++
        u "// TODO: Manual review needed - possible custom command: cy.watest(" ++
        n ++ u ")",
        u "**Conversion Changes:**" ++ nl ++
        join nl [
          rule_line (u "it(") (u "test(");
          rule_line (u "cy.watest(" ++ n ++ u ")")
            (u "// TODO: Manual review needed - possible custom command: cy.watest(" ++
             n ++ u ")");
          bullet ++ u " Added required Playwright imports"
        ]).
Proof.
  split.
  - unfold convert_cypress_code. rewrite run_rules_eq.
    change (recognized_mode (u "basic_syntax")) with true.
    change (tables_of (u "basic_syntax")) with [basic_syntax].
    cbn [for_each bind]. rewrite basic_table_on_wait. cbn [bind].
    unfold then_advanced. cbn [fst snd]. rewrite advanced_watest.
    cbn [bind fst snd app].
    unfold add_boilerplate, wants_import. cbn [fst snd].
    rewrite flagged_keeps_no_await.
    change (str_eqb (u "basic_syntax") (u "full_conversion")) with false.
    cbn [andb fst snd render join].
    rewrite (proj2 (fix_before_each_fixed _))
      by (apply (gap_absent n n_nonempty n_digits); reflexivity).
    reflexivity.
  - unfold convert_cypress_code. rewrite run_rules_eq.
    change (recognized_mode full_conversion) with true.
    change (tables_of full_conversion)
      with [basic_syntax; assertions; commands; waiting; advanced;
            url_navigation; architectural; fixtures_commands].
    cbn [for_each]. rewrite basic_table_on_wait. cbn [bind].
    repeat (rewrite apply_table_idle
              by (apply (keys_absent_gap n n_nonempty n_digits); reflexivity);
            cbn [bind]).
    unfold then_advanced. cbn [fst snd].
    rewrite advanced_watest. cbn [bind fst snd app].
    unfold add_boilerplate, wants_import. cbn [fst snd].
    rewrite flagged_keeps_no_await. cbn [fst snd].
    change (str_eqb full_conversion (u "full_conversion")) with true.
    rewrite (contains_app_l (u "test(")) by reflexivity.
    rewrite (startswith_gap n n_nonempty n_digits) by reflexivity.
    change (startswith (u "import")
              (u "// TODO: Manual review needed - possible custom command: cy.watest("))
      with false.
    cbn [andb orb negb fst snd render join].
    change (u "import { test, expect } from '@playwright/test';" ++ nl ++ nl ++
            u "// TODO: Manual review needed - possible custom command: cy.watest(" ++
            n ++ u ")")
      with ((u "import { test, expect } from '@playwright/test';" ++ nl ++ nl ++
             u "// TODO: Manual review needed - possible custom command: cy.watest(") ++
            n ++ u ")") at 1.
    rewrite (proj2 (fix_before_each_fixed _))
      by (apply (gap_absent n n_nonempty n_digits); reflexivity).
    reflexivity.
Qed.

End MangledWait.

Lemma fixed_wait_mangled_witness :
  u "3000" <> [] /\
  forallb ascii_digit (u "3000") = true /\
  convert_cypress_code ascii_db (u "cy.wait(" ++ u "3000" ++ u ")") (u "basic_syntax") =
    Ok (u "// TODO: Manual review needed - possible custom command: cy.watest(" ++
        u "3000" ++ u ")",
        u "**Conversion Changes:**" ++ nl ++
        join nl [
          rule_line (u "it(") (u "test(");
          rule_line (u "cy.watest(" ++ u "3000" ++ u ")")
            (u "// TODO: Manual review needed - possible custom command: cy.watest(" ++
             u "3000" ++ u ")")
        ]).
Proof.
  assert (N : u "3000" <> []) by (vm_compute; discriminate).
  assert (D : forallb ascii_digit (u "3000") = true) by reflexivity.
  split; [exact N|]. split; [exact D|].
  exact (proj1 (fixed_wait_mangled ascii_db (u "3000") N D)).
Defined.

(** ** Text without parentheses and dots *)

Lemma contains_has_char (c : char) (k code : str) :
  In c k -> contains k code = true -> In c code.
Proof.
  intros Hc H. apply contains_split in H as (a & b & ->).
  apply in_or_app. right. apply in_or_app. now left.
Qed.

Lemma dict_get_in {V} (k : str) (d : dict V) (v : V) :
  dict_get k d = Ok v -> In v (List.map snd d).
Proof.
  induction d as [|[k' v'] d IH]; simpl; [discriminate|].
  destruct (str_eqb k k'); [intros [= ->]; now left|]. intros H. right. auto.
Qed.

Lemma tables_of_in (mode : str) (items : dict str) :
  In items (tables_of mode) -> In items (List.map snd conversions).
Proof.
  unfold tables_of. destruct (str_eqb mode (u "full_conversion")).
  - intros H. apply in_flat_map in H as (category & _ & H).
    destruct (dict_get category conversions) as [v|e] eqn:E; [|destruct H].
    destruct H as [<-|[]]. eapply dict_get_in; eauto.
  - destruct (dict_get mode conversions) as [v|e] eqn:E; [|intros []].
    intros [<-|[]]. eapply dict_get_in; eauto.
Qed.

(** X15.  A text that holds neither an opening parenthesis nor a dot is
    returned as it is, with nothing to explain, in every mode, recognized
    or not: every table key holds a parenthesis, every pattern of the
    advanced pass begins with text that holds a dot, and so do the words
    the boilerplate step and the repair look for. *)
Theorem text_without_call_untouched (db : unicode_db) (code mode : str) :
  forallb (fun c => negb (N.eqb c 40 || N.eqb c 46)) code = true ->
  convert_cypress_code db code mode = Ok (code, no_changes).
Proof.
  intros H.
  assert (P : ~ In 40%N code /\ ~ In 46%N code).
  { split; intros Hin;
      apply (proj1 (forallb_forall _ _) H) in Hin; discriminate. }
  destruct P as [Hp Hd].
  assert (Paren : forall k, existsb (N.eqb 40) k = true -> contains k code = false).
  { intros k Hk. apply existsb_exists in Hk as (c & Hc & E).
    apply N.eqb_eq in E as <-.
    destruct (contains k code) eqn:C; [|reflexivity].
    destruct (Hp (contains_has_char _ _ _ Hc C)). }
  assert (Dot : forall k, existsb (N.eqb 46) k = true -> contains k code = false).
  { intros k Hk. apply existsb_exists in Hk as (c & Hc & E).
    apply N.eqb_eq in E as <-.
    destruct (contains k code) eqn:C; [|reflexivity].
    destruct (Hd (contains_has_char _ _ _ Hc C)). }
  apply convert_fixed_iff. unfold settled, rules_idle, lacks_await, wants_import.
  rewrite (Dot (u "page.")), (Paren (u "expect(")), (Paren (u "test(")),
    (Dot (u "test.test.beforeEach")) by reflexivity.
  rewrite !andb_false_r. cbn [orb andb negb]. rewrite !andb_true_r.
  apply andb_true_iff. split.
  - apply forallb_forall. intros items Hi. apply tables_of_in in Hi.
    apply forallb_forall. intros kv Hkv. apply negb_true_iff, Paren.
    cbn [conversions List.map snd In] in Hi.
    repeat (destruct Hi as [<-|Hi];
            [match type of Hkv with
             | In _ ?l =>
                 assert (K : forallb (fun kv : str * str =>
                                        existsb (N.eqb 40) (fst kv)) l = true)
                   by (vm_compute; reflexivity);
                 exact (proj1 (forallb_forall _ _) K kv Hkv)
             end|]).
    destruct Hi.
  - apply orb_true_iff. right. apply forallb_forall. intros b Hb.
    assert (S : forall p, existsb (N.eqb 46) (lit_prefix p) = true ->
                search p code = false).
    { intros p Hpfx. apply (search_absent [46%N]).
      - apply Dot. reflexivity.
      - apply existsb_exists in Hpfx as (c & Hc & E).
        apply N.eqb_eq in E as <-.
        apply in_split in Hc as (a & b0 & ->).
        apply contains_app_r. reflexivity. }
    cbn [advanced_blocks In] in Hb.
    repeat (destruct Hb as [<-|Hb];
            [cbn [block_idle block_pattern];
             first [ rewrite S by (vm_compute; reflexivity); reflexivity
                   | rewrite (proj2 (ReFacts.findall_nil_search _ code))
                       by (apply S; vm_compute; reflexivity);
                     reflexivity ]|]).
    destruct Hb.
Qed.

Lemma text_without_call_untouched_witness :
  forallb (fun c => negb (N.eqb c 40 || N.eqb c 46))
          (u "const total = price + tax;") = true /\
  convert_cypress_code ascii_db (u "const total = price + tax;") full_conversion =
    Ok (u "const total = price + tax;", no_changes).
Proof.
  split.
  - reflexivity.
  - apply (text_without_call_untouched ascii_db). reflexivity.
Defined.

(** ** The status-code chain *)

Lemma firstn_length_app {A} (a t : list A) : firstn (length a) (a ++ t) = a.
Proof. induction a as [|x a IH]; simpl; [reflexivity|]. now rewrite IH. Qed.

Lemma scan_skip_prefix (p : pattern) (a t : str) :
  scan p (length a) (a ++ t) = scan p 0 t.
Proof.
  induction a as [|x a IH]; [reflexivity|]. cbn [length app scan]. exact IH.
Qed.

(** A match that ends inside the text is recorded, and the scan goes on
    behind it. *)
Lemma scan_after_match (p : pattern) (a t : str) (caps : list str) :
  a <> [] ->
  match_at p (a ++ t) = Some (caps, t) ->
  scan p 0 (a ++ t) = (a, caps) :: scan p 0 t.
Proof.
  intros Ha Hm. destruct a as [|c a]; [congruence|].
  change (scan p 0 ((c :: a) ++ t))
    with (match match_at p ((c :: a) ++ t) with
          | Some (caps, rest) =>
              (firstn (length ((c :: a) ++ t) - length rest) ((c :: a) ++ t), caps)
              :: scan p (length ((c :: a) ++ t) - length rest - 1) (a ++ t)
          | None => scan p 0 (a ++ t)
          end).
  rewrite Hm.
  assert (L : length ((c :: a) ++ t) - length t = length (c :: a))
    by (rewrite length_app; lia).
  rewrite L, firstn_length_app. cbn [length Nat.sub]. rewrite Nat.sub_0_r.
  now rewrite scan_skip_prefix.
Qed.

Lemma space_of_ascii_digit (c : char) : ascii_digit c = true -> space c = false.
Proof.
  unfold ascii_digit, space, between. intros H.
  apply andb_true_iff in H as [H1 H2].
  apply N.leb_le in H1. apply N.leb_le in H2.
  repeat match goal with
         | |- context [(?a <=? ?b)%N] =>
             let E := fresh in destruct (a <=? b)%N eqn:E;
             [apply N.leb_le in E | apply N.leb_gt in E]
         | |- context [(?a =? ?b)%N] =>
             let E := fresh in destruct (a =? b)%N eqn:E;
             [apply N.eqb_eq in E | apply N.eqb_neq in E]
         end; cbn [andb orb]; try reflexivity; lia.
Qed.

Lemma not_quote_of_ascii_digit (c : char) :
  ascii_digit c = true -> not_quote c = true.
Proof.
  unfold ascii_digit, not_quote, quote, between. intros H.
  apply andb_true_iff in H as [H1 _]. apply N.leb_le in H1.
  apply negb_true_iff, orb_false_iff. split; apply N.eqb_neq; lia.
Qed.

Section StatusChain.
Variable db : unicode_db.
Variable n : str.
Hypothesis n_nonempty : n <> [].
Hypothesis n_digits : forallb ascii_digit n = true.

Local Abbreviation chain := (status_chain n).
Local Abbreviation converted := (status_chain_converted_text n).

Lemma match_chain :
  match_at (wait_its_should_pattern db) chain = Some ([u "getData"; n], []).
Proof.
  unfold match_at, wait_its_should_pattern, ws, lits, lit, status_chain.
  change (u "cy.wait('@getData').its('response.statusCode').should('eq', " ++
          n ++ u ")")
    with (u "cy.wait('@" ++ [103%N] ++ u "etData" ++
          u "').its('response.statusCode').should('eq'," ++ [32%N] ++ n ++ u ")").
  rewrite m_items_lits_app. cbn [app m_items m_atoms].
  change (not_quote 103%N) with true. cbv iota.
  apply star_run; [reflexivity|].
  change (u "').its('response.statusCode').should('eq'," ++ 32%N :: n ++ u ")")
    with (39%N :: (u ").its('response.statusCode').should('eq'," ++ 32%N :: n ++ u ")")).
  cbn [star]. change (not_quote 39%N) with false. cbv iota.
  cbn [m_atoms].
  change (39%N :: u ").its('response.statusCode').should('eq'," ++ 32%N :: n ++ u ")")
    with (u "').its('response.statusCode').should('eq'," ++ 32%N :: n ++ u ")").
  rewrite m_items_lits_app. cbn [app m_items m_atoms star].
  change (space 32%N) with true. cbv iota.
  destruct n as [|d n'] eqn:E; [congruence|].
  cbn [forallb] in n_digits. apply andb_true_iff in n_digits as [Hd Hn'].
  cbn [app star]. rewrite (space_of_ascii_digit d Hd).
  cbn [m_atoms m_items]. rewrite (digit_of_ascii_digit db d Hd).
  match goal with
  | |- match ?X with _ => _ end = ?R => assert (S : X = R)
  end.
  { apply star_run;
      [exact (forallb_impl _ _ _ (digit_of_ascii_digit db) Hn')|].
    change (u ")") with [41%N]. cbn [star].
    change (digit db 41%N) with false. cbv iota.
    cbn [List.map m_items m_atoms]. rewrite N.eqb_refl.
    cbn [rev]. rewrite !rev_app_distr, !rev_involutive. reflexivity. }
  rewrite S. reflexivity.
Qed.

Lemma findall_chain :
  findall (wait_its_should_pattern db) chain = [FTuple [u "getData"; n]].
Proof.
  rewrite (findall_whole _ _ [u "getData"; n]).
  - reflexivity.
  - discriminate.
  - exact match_chain.
  - reflexivity.
Qed.

Local Abbreviation tail := (status_chain_tail n).

Lemma match_wait_call :
  match_at unidentified_cy_pattern (u "cy.wait('@getData')" ++ tail) =
  Some ([u "cy.wait('@getData')"], tail).
Proof.
  unfold match_at, unidentified_cy_pattern, lit. cbn [m_items].
  change (u "cy.wait('@getData')" ++ tail)
    with (u "cy." ++ [119%N] ++ [97; 105; 116]%N ++ u "(" ++
          u "'@getData'" ++ u ")" ++ tail) at 1.
  rewrite m_atoms_lit_app. cbn [app m_atoms].
  change (alpha 119%N) with true. cbv iota.
  change (97%N :: 105%N :: 116%N :: u "(" ++ u "'@getData'" ++ u ")" ++ tail)
    with ([97; 105; 116]%N ++ u "(" ++ u "'@getData'" ++ u ")" ++ tail).
  apply star_run; [reflexivity|].
  change (u "(") with [40%N]. cbn [app star].
  change (alnum 40%N) with false. cbv iota.
  change (40%N :: u "'@getData'" ++ u ")" ++ tail)
    with ([40%N] ++ u "'@getData'" ++ u ")" ++ tail).
  rewrite (m_atoms_lit_app [40%N]). cbn [app m_atoms].
  apply star_run; [reflexivity|].
  change (u ")" ++ tail) with (41%N :: tail). cbn [star].
  change (not_rparen 41%N) with false. cbv iota.
  change (41%N :: tail) with ([41%N] ++ tail).
  change (List.map ALit (u ")")) with (List.map ALit [41%N] ++ []).
  rewrite (m_atoms_lit_app [41%N]). cbn [m_atoms m_items]. reflexivity.
Qed.

Lemma findall_wait_call :
  findall unidentified_cy_pattern chain = [FStr (u "cy.wait('@getData')")].
Proof.
  unfold findall.
  change chain with (u "cy.wait('@getData')" ++ tail).
  assert (Ha : u "cy.wait('@getData')" <> [])
    by (intro E; vm_compute in E; discriminate E).
  rewrite (scan_after_match _ _ _ _ Ha match_wait_call).
  assert (S : scan unidentified_cy_pattern 0 tail = []).
  { apply ReFacts.scan_nil_search. apply (search_absent (u "cy.")).
    - apply (gap_absent n n_nonempty n_digits). reflexivity.
    - reflexivity. }
  rewrite S. reflexivity.
Qed.

Lemma known_wait_call :
  to_flag (u "cy.wait('@getData')") chain = false.
Proof. reflexivity. Qed.

(** The advanced pass on the chain. *)
Lemma advanced_chain :
  _convert_advanced_patterns db chain =
  Ok (converted, [rule_line chain converted]).
Proof.
  unfold _convert_advanced_patterns.
  pose (front := firstn 9 (advanced_blocks db)).
  pose (rest := skipn 10 (advanced_blocks db)).
  change (advanced_blocks db)
    with (front ++ [nth 9 (advanced_blocks db) (NoteIf [] [])] ++ rest).
  rewrite for_each_app, for_each_idle.
  2:{ intros b Hb. apply run_block_idle.
      cbn [front advanced_blocks firstn In] in Hb.
      repeat (destruct Hb as [<-|Hb];
              [first [ apply (idle_on_gap n n_nonempty n_digits);
                       vm_compute; reflexivity
                     | cbn [block_idle]; rewrite findall_wait_call;
                       reflexivity ]|]).
      destruct Hb. }
  cbn [bind]. rewrite for_each_app.
  cbn [nth advanced_blocks for_each run_block].
  unfold rule2 at 1. cbn [fst]. rewrite findall_chain.
  cbn [for_each unpack2 bind]. unfold rewrite at 1. cbn [fst snd app].
  change (u "cy.wait('@" ++ u "getData" ++
          u "').its('response.statusCode').should('eq', " ++ n ++ u ")")
    with chain.
  change (u "expect((await page.waitForResponse('**/" ++ u "getData" ++
          u "**')).status()).toBe(" ++ n ++ u ")")
    with converted.
  rewrite replace_self by (unfold status_chain; discriminate).
  apply for_each_idle.
  intros b Hb. apply run_block_idle.
  cbn [rest advanced_blocks skipn In] in Hb.
  repeat (destruct Hb as [<-|Hb];
          [apply (idle_on_gap n n_nonempty n_digits); vm_compute; reflexivity|]).
  destruct Hb.
Qed.

Lemma chain_by_table (mode : str) (items : dict str) :
  recognized_mode mode = true ->
  tables_of mode = [items] ->
  str_eqb mode (u "full_conversion") = false ->
  forallb (fun kv =>
             gap_free (fst kv)
               (u "cy.wait('@getData').its('response.statusCode').should('eq', ")
               (u ")")) items = true ->
  convert_cypress_code db chain mode =
  Ok (converted, u "**Conversion Changes:**" ++ nl ++ rule_line chain converted).
Proof.
  intros Hr Ht Hf Hk.
  unfold convert_cypress_code. rewrite run_rules_eq, Hr, Ht.
  cbn [for_each bind].
  unfold status_chain at 1.
  rewrite apply_table_idle
    by now apply (keys_absent_gap n n_nonempty n_digits).
  cbn [bind]. unfold then_advanced. cbn [fst snd].
  fold (status_chain n). rewrite advanced_chain. cbn [bind fst snd app].
  unfold add_boilerplate, wants_import. rewrite Hf. cbn [fst snd andb].
  assert (Ha : lacks_await converted = false).
  { unfold lacks_await, status_chain_converted_text.
    rewrite contains_app_l by (vm_compute; reflexivity). reflexivity. }
  rewrite Ha. cbn [fst snd render join].
  rewrite (proj2 (fix_before_each_fixed _)).
  - reflexivity.
  - now apply (gap_absent n n_nonempty n_digits).
Qed.

(** X16.  In the modes whose table leaves the chain alone (assertions,
    commands, waiting, url_navigation and fixtures_commands) the chain
    [cy.wait('@getData').its('response.statusCode').should('eq', N)] is
    converted by the composite rule alone, whatever the status code [N]:
    the result is one [expect(...).toBe(N)] and one explanation line. *)
Theorem status_chain_converted (mode : str) :
  In mode (List.map u ["assertions"; "commands"; "waiting";
                       "url_navigation"; "fixtures_commands"]%string) ->
  convert_cypress_code db
    (u "cy.wait('@getData').its('response.statusCode').should('eq', " ++
     n ++ u ")") mode =
  Ok (u "expect((await page.waitForResponse('**/getData**')).status()).toBe(" ++
      n ++ u ")",
      u "**Conversion Changes:**" ++ nl ++
      rule_line
        (u "cy.wait('@getData').its('response.statusCode').should('eq', " ++
         n ++ u ")")
        (u "expect((await page.waitForResponse('**/getData**')).status()).toBe(" ++
         n ++ u ")")).
Proof.
  intros Hm. cbn [List.map In] in Hm.
  fold (status_chain n). fold (status_chain_converted_text n).
  repeat (destruct Hm as [<-|Hm];
          [eapply chain_by_table; vm_compute; reflexivity|]).
  destruct Hm.
Qed.

End StatusChain.

Lemma status_chain_converted_witness :
  u "404" <> [] /\
  forallb ascii_digit (u "404") = true /\
  In (u "waiting")
     (List.map u ["assertions"; "commands"; "waiting";
                  "url_navigation"; "fixtures_commands"]%string) /\
  convert_cypress_code ascii_db
    (u "cy.wait('@getData').its('response.statusCode').should('eq', " ++
     u "404" ++ u ")") (u "waiting") =
  Ok (u "expect((await page.waitForResponse('**/getData**')).status()).toBe(" ++
      u "404" ++ u ")",
      u "**Conversion Changes:**" ++ nl ++
      rule_line
        (u "cy.wait('@getData').its('response.statusCode').should('eq', " ++
         u "404" ++ u ")")
        (u "expect((await page.waitForResponse('**/getData**')).status()).toBe(" ++
         u "404" ++ u ")")).
Proof.
  assert (N : u "404" <> []) by (intro E; vm_compute in E; discriminate E).
  assert (D : forallb ascii_digit (u "404") = true) by reflexivity.
  assert (M : In (u "waiting")
     (List.map u ["assertions"; "commands"; "waiting";
                  "url_navigation"; "fixtures_commands"]%string)) by (cbn; tauto).
  split; [exact N|]. split; [exact D|]. split; [exact M|].
  exact (status_chain_converted ascii_db (u "404") N D (u "waiting") M).
Defined.

(** * An unknown command and the text around it *)

Lemma split_at_char (c : char) (k : str) :
  existsb (N.eqb c) k = true -> k = before_char c k ++ c :: after_char c k.
Proof.
  induction k as [|x k IH]; cbn [existsb before_char after_char]; [discriminate|].
  rewrite (N.eqb_sym c x). destruct (N.eqb x c) eqn:E.
  - apply N.eqb_eq in E as ->. reflexivity.
  - cbn [orb app]. intros H. f_equal. auto.
Qed.

(** A character that stands once in a text splits it in one way only. *)
Lemma unique_split (c : char) (x y x' y' : str) :
  ~ In c x' -> ~ In c y' -> x ++ c :: y = x' ++ c :: y' -> x = x' /\ y = y'.
Proof.
  revert x'; induction x as [|a x IH]; intros [|a' x'] Hx Hy E; cbn [app] in E.
  - injection E as E. auto.
  - injection E as E1 E2. destruct Hx. left. congruence.
  - injection E as E1 E2. destruct Hy. rewrite <- E2.
    apply in_or_app. right. now left.
  - injection E as E1 E2. destruct (IH x') as [-> ->]; auto.
    + intros H. apply Hx. now right.
    + subst. auto.
Qed.

(** Around a single [c], with [lx] before it and [ly] behind, a text
    that is apart from the two occurs nowhere. *)
Lemma apart_absent (c : char) (lx ly k pre post : str) :
  ~ In c (pre ++ lx) -> ~ In c (ly ++ post) ->
  apart_at c lx ly k = true ->
  contains k (pre ++ lx ++ c :: ly ++ post) = false.
Proof.
  intros Hx Hy H. unfold apart_at in H. apply andb_true_iff in H as [Hc H].
  destruct (contains k (pre ++ lx ++ c :: ly ++ post)) eqn:C; [|reflexivity].
  exfalso. apply contains_split in C as (a & b & E).
  rewrite (split_at_char c k Hc) in E.
  set (k1 := before_char c k) in *. set (k2 := after_char c k) in *.
  assert (E' : (a ++ k1) ++ c :: (k2 ++ b) = (pre ++ lx) ++ c :: (ly ++ post)).
  { rewrite <- !app_assoc. cbn [app]. rewrite E, <- !app_assoc. reflexivity. }
  apply unique_split in E' as [E1 E2]; auto.
  apply orb_true_iff in H as [H|H].
  - apply (f_equal (@rev char)) in E1. rewrite !rev_app_distr in E1.
    pose proof (startswith_refl (rev k1) (rev a)) as S.
    rewrite E1, (clash_startswith _ _ _ H) in S. discriminate.
  - pose proof (startswith_refl k2 b) as S.
    rewrite E2, (clash_startswith _ _ _ H) in S. discriminate.
Qed.

(** A text that begins with [lx] and [c] begins nowhere before them. *)
Lemma begins_at_anchor (c : char) (lx k2 a y : str) :
  ~ In c (a ++ lx) -> ~ In c y -> a <> [] ->
  startswith (lx ++ c :: k2) (a ++ lx ++ c :: y) = false.
Proof.
  intros Hx Hy Ha.
  destruct (startswith (lx ++ c :: k2) (a ++ lx ++ c :: y)) eqn:S; [|reflexivity].
  exfalso. apply startswith_split in S as [r E].
  assert (E' : lx ++ c :: (k2 ++ r) = (a ++ lx) ++ c :: y).
  { rewrite <- !app_assoc in *. cbn [app] in *. now rewrite E. }
  apply unique_split in E' as [E1 _]; auto.
  apply (f_equal (@length char)) in E1. rewrite length_app in E1.
  destruct a; [congruence|]. simpl in E1. lia.
Qed.

(** The scan passes over a stretch in which the literal beginning of the
    pattern begins nowhere. *)
Lemma scan_skip_unmatched (p : pattern) (a s : str) :
  (forall a1 a2, a = a1 ++ a2 -> a2 <> [] ->
                 startswith (lit_prefix p) (a2 ++ s) = false) ->
  scan p 0 (a ++ s) = scan p 0 s.
Proof.
  induction a as [|x a IH]; intros H; [reflexivity|].
  assert (M : match_at p ((x :: a) ++ s) = None).
  { destruct (match_at p ((x :: a) ++ s)) as [r|] eqn:E; [|reflexivity].
    apply m_items_lit_prefix in E.
    rewrite (H [] (x :: a) eq_refl) in E by discriminate. discriminate. }
  change (scan p 0 ((x :: a) ++ s))
    with (match match_at p ((x :: a) ++ s) with
          | Some (caps, rest) =>
              (firstn (length ((x :: a) ++ s) - length rest) ((x :: a) ++ s), caps)
              :: scan p (length ((x :: a) ++ s) - length rest - 1) (a ++ s)
          | None => scan p 0 (a ++ s)
          end).
  rewrite M. apply IH. intros a1 a2 -> Ha2. apply (H (x :: a1) a2); auto.
Qed.

Lemma replace_from_skip_prefix (old new a t : str) :
  replace_from old new (length a) (a ++ t) = replace_from old new 0 t.
Proof. induction a as [|x a IH]; [reflexivity|]. cbn [length app replace_from]. exact IH. Qed.

(** Replacing a text that occurs once. *)
Lemma replace_once (old new a b : str) :
  old <> [] ->
  (forall a1 a2, a = a1 ++ a2 -> a2 <> [] ->
                 startswith old (a2 ++ old ++ b) = false) ->
  contains old b = false ->
  replace old new (a ++ old ++ b) = a ++ new ++ b.
Proof.
  intros Ho H Hb.
  assert (E : replace old new (a ++ old ++ b) =
              replace_from old new 0 (a ++ old ++ b))
    by (destruct old; [congruence|reflexivity]).
  rewrite E. clear E. induction a as [|x a IH].
  - assert (S : startswith old (old ++ b) = true) by apply startswith_refl.
    destruct old as [|o old']; [congruence|].
    cbn [app replace_from] in *. rewrite S. f_equal.
    cbn [length Nat.sub]. rewrite Nat.sub_0_r, replace_from_skip_prefix.
    now apply replace_from_absent.
  - cbn [app replace_from].
    change (x :: a ++ old ++ b) with ((x :: a) ++ old ++ b).
    rewrite (H [] (x :: a) eq_refl) by discriminate.
    f_equal. apply IH. intros a1 a2 -> Ha2. apply (H (x :: a1) a2); auto.
Qed.

Lemma startswith_stop (c : char) (k a r : str) :
  ~ In c k -> startswith k (a ++ c :: r) = startswith k a.
Proof.
  revert a; induction k as [|x k IH]; intros a Hk; [reflexivity|].
  destruct a as [|y a]; cbn [app startswith].
  - destruct (N.eqb x c) eqn:E; [|reflexivity].
    apply N.eqb_eq in E. destruct Hk. now left.
  - rewrite IH; [reflexivity|]. intros H. apply Hk. now right.
Qed.

(** Text put into another adds no occurrence of [k] when [k] lacks its
    first character and can begin nowhere inside it. *)
Lemma contains_insert (c : char) (k a m rest : str) :
  ~ In c k -> begins_none k (c :: m) = true ->
  contains k (a ++ (c :: m) ++ rest) = true -> contains k (a ++ rest) = true.
Proof.
  intros Hc Hm. induction a as [|x a IH]; cbn [app].
  - intros H. change (c :: m ++ rest) with ((c :: m) ++ rest) in H.
    now rewrite contains_behind in H.
  - cbn [contains]. intros H. apply orb_true_iff in H as [H|H].
    + change (x :: a ++ c :: m ++ rest) with ((x :: a) ++ c :: (m ++ rest)) in H.
      rewrite startswith_stop in H by exact Hc.
      change (x :: a ++ rest) with ((x :: a) ++ rest).
      now rewrite (startswith_app_l _ _ rest H).
    + rewrite (IH H). apply orb_true_r.
Qed.

Lemma contains_char (c : char) (s : str) : In c s -> contains [c] s = true.
Proof.
  induction s as [|x s IH]; [intros []|]. intros [->|H]; cbn [contains startswith].
  - now rewrite N.eqb_refl.
  - rewrite (IH H). apply orb_true_r.
Qed.

Lemma contains_self (k : str) : contains k k = true.
Proof.
  apply contains_of_startswith. pose proof (startswith_refl k []) as R.
  now rewrite app_nil_r in R.
Qed.

Section UnknownCommand.
Variable db : unicode_db.

Local Abbreviation call := (u "cy.customThing('x')").
Local Abbreviation marker :=
  (u "// TODO: Manual review needed - possible custom command: ").
Local Abbreviation flagged :=
  (u "// TODO: Manual review needed - possible custom command: cy.customThing('x')").
Local Abbreviation apart := (apart_at 46%N (u "cy") (u "customThing('x')")).

Lemma no_dot (s : str) : contains (u ".") s = false -> ~ In 46%N s.
Proof. intros H Hin. apply contains_char in Hin. change [46%N] with (u ".") in Hin. congruence. Qed.

Lemma no_dot_app (a b : str) : ~ In 46%N a -> ~ In 46%N b -> ~ In 46%N (a ++ b).
Proof. intros Ha Hb H. apply in_app_or in H as [H|H]; auto. Qed.

Lemma no_dot_lit (l : str) : existsb (N.eqb 46) l = false -> ~ In 46%N l.
Proof.
  intros H Hin. assert (E : existsb (N.eqb 46) l = true).
  { apply existsb_exists. exists 46%N. split; [exact Hin|reflexivity]. }
  congruence.
Qed.

(** The call holds the only dot of the text; a word apart from it occurs
    nowhere. *)
Lemma absent_around (k a b : str) :
  ~ In 46%N a -> ~ In 46%N b -> apart k = true ->
  contains k (a ++ call ++ b) = false.
Proof.
  intros Ha Hb Hk.
  change (a ++ call ++ b)
    with (a ++ u "cy" ++ 46%N :: u "customThing('x')" ++ b).
  apply apart_absent; [| |exact Hk];
    apply no_dot_app; auto; apply no_dot_lit; reflexivity.
Qed.

Lemma not_before_call (k2 a2 b : str) :
  ~ In 46%N a2 -> ~ In 46%N b -> a2 <> [] ->
  startswith (u "cy." ++ k2) (a2 ++ call ++ b) = false.
Proof.
  intros Ha Hb Hne.
  change (a2 ++ call ++ b)
    with (a2 ++ u "cy" ++ 46%N :: (u "customThing('x')" ++ b)).
  change (u "cy." ++ k2) with (u "cy" ++ 46%N :: k2).
  apply begins_at_anchor; auto; apply no_dot_app; auto; apply no_dot_lit; reflexivity.
Qed.

Lemma idle_around (blk : block) (a b : str) :
  ~ In 46%N a -> ~ In 46%N b ->
  match blk with FlagUnidentified _ => false | _ => true end = true ->
  apart (lit_prefix (block_pattern blk)) = true ->
  block_idle blk (a ++ call ++ b) = true.
Proof.
  intros Ha Hb Hblk Hk.
  assert (S : search (block_pattern blk) (a ++ call ++ b) = false).
  { apply (search_absent (lit_prefix (block_pattern blk))).
    - now apply absent_around.
    - apply contains_self. }
  destruct blk; try discriminate; cbn [block_idle block_pattern] in *;
    now rewrite S.
Qed.

Lemma match_call (b : str) :
  match_at unidentified_cy_pattern (call ++ b) = Some ([call], b).
Proof.
  unfold match_at, unidentified_cy_pattern, lit. cbn [m_items].
  change (call ++ b)
    with (u "cy." ++ [99%N] ++ u "ustomThing" ++ u "(" ++ u "'x'" ++ u ")" ++ b) at 1.
  rewrite m_atoms_lit_app. cbn [app m_atoms].
  change (alpha 99%N) with true. cbv iota.
  match goal with
  | |- star _ _ ?s _ = _ =>
      change s with (u "ustomThing" ++ u "(" ++ u "'x'" ++ u ")" ++ b)
  end.
  apply star_run; [reflexivity|].
  change (u "(") with [40%N]. cbn [app star].
  change (alnum 40%N) with false. cbv iota.
  change (40%N :: u "'x'" ++ u ")" ++ b) with ([40%N] ++ u "'x'" ++ u ")" ++ b).
  rewrite (m_atoms_lit_app [40%N]). cbn [app m_atoms].
  match goal with
  | |- star _ _ ?s _ = _ => change s with (u "'x'" ++ u ")" ++ b)
  end.
  apply star_run; [reflexivity|].
  change (u ")" ++ b) with (41%N :: b). cbn [star].
  change (not_rparen 41%N) with false. cbv iota.
  change (41%N :: b) with ([41%N] ++ b).
  change (List.map ALit (u ")")) with (List.map ALit [41%N] ++ []).
  rewrite (m_atoms_lit_app [41%N]). cbn [m_atoms m_items]. reflexivity.
Qed.

Lemma findall_call (a b : str) :
  ~ In 46%N a -> ~ In 46%N b ->
  findall unidentified_cy_pattern (a ++ call ++ b) = [FStr call].
Proof.
  intros Ha Hb. unfold findall.
  rewrite scan_skip_unmatched.
  2:{ intros a1 a2 -> Hne. change (lit_prefix unidentified_cy_pattern) with (u "cy." ++ []).
      apply (not_before_call []); auto.
      intros H. apply Ha. apply in_or_app. now right. }
  assert (Hc : call <> []) by (intro E; vm_compute in E; discriminate E).
  rewrite (scan_after_match _ _ _ _ Hc (match_call b)).
  assert (S : scan unidentified_cy_pattern 0 b = []).
  { apply ReFacts.scan_nil_search. apply (search_absent (u ".")).
    - destruct (contains (u ".") b) eqn:E; [|reflexivity].
      destruct Hb. apply (contains_has_char 46%N (u ".") b); [now left|exact E].
    - reflexivity. }
  rewrite S. reflexivity.
Qed.

(** The fallback block finds the call once, flags it and replaces it
    where it stands. *)
Lemma flag_call (a b : str) :
  ~ In 46%N a -> ~ In 46%N b ->
  run_block (FlagUnidentified unidentified_cy_pattern) (a ++ call ++ b, []) =
  Ok (a ++ flagged ++ b, [rule_line call flagged]).
Proof.
  intros Ha Hb. cbn [run_block]. unfold flag_unidentified. cbn [fst].
  rewrite findall_call by assumption. cbn [for_each as_str bind fst].
  assert (F : to_flag call (a ++ call ++ b) = true).
  { unfold to_flag. apply andb_true_iff. split; [reflexivity|].
    apply contains_app_r, contains_app_l, contains_self. }
  rewrite F. unfold rewrite. cbn [fst snd app].
  change (marker ++ call) with flagged.
  rewrite replace_once; [reflexivity| | |].
  - intro E; vm_compute in E; discriminate E.
  - intros a1 a2 -> Hne.
    change call with (u "cy." ++ u "customThing('x')") at 1.
    apply not_before_call; auto.
    intros H. apply Ha. apply in_or_app. now right.
  - destruct (contains call b) eqn:E; [|reflexivity].
    destruct Hb. apply (contains_has_char 46%N call b); [|exact E].
    vm_compute. tauto.
Qed.

(** The advanced pass on the call and what stands around it. *)
Lemma advanced_call (a b : str) :
  ~ In 46%N a -> ~ In 46%N b ->
  _convert_advanced_patterns db (a ++ call ++ b) =
  Ok (a ++ flagged ++ b, [rule_line call flagged]).
Proof.
  intros Ha Hb. unfold _convert_advanced_patterns.
  pose (front := firstn 2 (advanced_blocks db)).
  pose (rest := skipn 3 (advanced_blocks db)).
  change (advanced_blocks db)
    with (front ++ [nth 2 (advanced_blocks db) (NoteIf [] [])] ++ rest).
  rewrite for_each_app, for_each_idle.
  2:{ intros blk Hblk. apply run_block_idle.
      cbn [front advanced_blocks firstn In] in Hblk.
      repeat (destruct Hblk as [<-|Hblk];
              [apply idle_around; auto; vm_compute; reflexivity|]).
      destruct Hblk. }
  cbn [bind]. rewrite for_each_app.
  cbn [nth advanced_blocks for_each].
  rewrite flag_call by assumption. cbn [bind].
  assert (Hm : ~ In 46%N (a ++ marker))
    by (apply no_dot_app; auto; apply no_dot_lit; reflexivity).
  assert (E : a ++ flagged ++ b = (a ++ marker) ++ call ++ b).
  { change flagged with (marker ++ call). now rewrite <- !app_assoc. }
  rewrite E. apply for_each_idle.
  intros blk Hblk. apply run_block_idle.
  cbn [rest advanced_blocks skipn In] in Hblk.
  repeat (destruct Hblk as [<-|Hblk];
          [apply idle_around; auto; vm_compute; reflexivity|]).
  destruct Hblk.
Qed.

(** A table key holds a dot and is apart from the call, or is one of
    four words without a dot. *)
Lemma keys_around (items : dict str) (a b : str) :
  ~ In 46%N a -> ~ In 46%N b ->
  In items (List.map snd conversions) ->
  forallb (fun k => negb (contains k (a ++ call ++ b)))
          (List.map u ["describe("; "it("; "beforeEach("; "before("]%string) = true ->
  keys_absent items (a ++ call ++ b) = true.
Proof.
  intros Ha Hb Hi Hw. apply forallb_forall. intros kv Hkv.
  assert (K : forallb (fun kv : str * str =>
                         apart (fst kv) ||
                         existsb (str_eqb (fst kv))
                           (List.map u ["describe("; "it("; "beforeEach("; "before("]%string))
                      items = true).
  { cbn [conversions List.map snd In] in Hi.
    repeat (destruct Hi as [<-|Hi]; [vm_compute; reflexivity|]). destruct Hi. }
  pose proof (proj1 (forallb_forall _ _) K kv Hkv) as Q. cbn beta in Q.
  apply orb_true_iff in Q as [Q|Q].
  - apply negb_true_iff. now apply absent_around.
  - apply existsb_exists in Q as (w & Hin & E). apply str_eqb_eq in E as ->.
    exact (proj1 (forallb_forall _ _) Hw _ Hin).
Qed.

(** The review comment brings neither [expect(] nor [test(] into the
    text. *)
Lemma marker_hides_nothing (k a b : str) :
  In k (List.map u ["expect("; "test("]%string) ->
  contains k (a ++ call ++ b) = false ->
  contains k (a ++ flagged ++ b) = false.
Proof.
  intros Hk H. destruct (contains k (a ++ flagged ++ b)) eqn:E; [|reflexivity].
  change (a ++ flagged ++ b) with (a ++ (47%N :: tl marker) ++ call ++ b) in E.
  apply contains_insert in E; [congruence| |].
  - cbn [List.map In] in Hk. destruct Hk as [<-|[<-|[]]]; vm_compute; intuition discriminate.
  - cbn [List.map In] in Hk. destruct Hk as [<-|[<-|[]]]; vm_compute; reflexivity.
Qed.


End UnknownCommand.


